(** * ISS tracker: the ephemeris store, the tracker service and the HTTP routes

    A shallow embedding of [iss_tracker.py].  The Redis client, the feed
    request, the geocoder, the clock and the C library are the program's
    collaborators: Redis is the part of the state the program owns
    ([World]), the others are read from an environment ([Env]).  Python
    exceptions are an explicit outcome ([Raise]) of a state-and-error
    monad, so that what a failing call leaves behind in the store stays
    visible.

    Conventions of the model:
    - A Python [float] is a binary64 value, [float] of the Standard
      Library: [+], [-], [*], [/] and [math.sqrt] are the IEEE operations,
      and [float(text)] rounds a decimal literal to the nearest value.  The
      results of the C library's [pow], [asin] and [atan2] depend on the
      platform: they are read from the environment, inside the checks that
      CPython puts around them.  The digits that [repr] prints for a float
      are read from the environment too.
    - Text is ASCII ([string] holds bytes); the non-ASCII digits and
      blanks that [int], [float] and [strptime] also accept are not
      digits or blanks here.
    - The Redis client is created without [decode_responses]: it answers
      with [bytes], in the list of epochs and in the keys and values of a
      hash.  Its connection does not fail.  What the program logs is not
      part of the state.
    - Flask makes the value of a view into a response after the view has
      returned: a list or a dict is sent as JSON with status 200, and one
      that holds [bytes] cannot be made into JSON, which Flask answers
      with its own 500. *)

From Stdlib Require Import ZArith Lia Ascii String List Floats.
From stdpp Require Import base gmap strings list.

(** ** Exceptions and the monad of the program *)

Inductive exn : Type :=
  | ValueError
  | TypeError
  | ZeroDivisionError
  | OverflowError
  | KeyError (key : string)
  | DataError
  | IndexError
  | FeedError (detail : string)
  | GeocoderError (detail : string).

Inductive Result (A : Type) : Type :=
  | Ok (a : A)
  | Raise (e : exn).
Arguments Ok {A} a.
Arguments Raise {A} e.

(** ** Library functions on text: [int], [float], [datetime.strptime] *)

Module Text.

(** The ASCII blanks that [int] and [float] skip at both ends. *)
Definition is_space (c : ascii) : bool :=
  let n := nat_of_ascii c in
  ((9 <=? n) && (n <=? 13) || (n =? 32))%nat.

Definition digit (c : ascii) : option Z :=
  let n := Z.of_nat (nat_of_ascii c) in
  if ((48 <=? n) && (n <=? 57))%Z then Some (n - 48)%Z else None.

Fixpoint lstrip (s : string) : string :=
  match s with
  | String c s' => if is_space c then lstrip s' else s
  | EmptyString => EmptyString
  end.

Definition rstrip (s : string) : string := String.rev (lstrip (String.rev s)).

Definition strip (s : string) : string := rstrip (lstrip s).

(** A run of decimal digits in which single underscores may separate two
    digits.  Returns the value read, the number of digits and the rest of
    the text; [None] when an underscore is not between two digits. *)
Fixpoint digits (s : string) (acc : Z) (n : nat) (us : bool)
  : option (Z * nat * string) :=
  match s with
  | String c s' =>
      if Ascii.eqb c "_"
      then if us || (n =? 0)%nat then None else digits s' acc n true
      else match digit c with
           | Some d => digits s' (10 * acc + d)%Z (S n) false
           | None => if us then None else Some (acc, n, s)
           end
  | EmptyString => if us then None else Some (acc, n, s)
  end.

(** A run of plain decimal digits, as [\d] of a [strptime] directive
    reads it. *)
Fixpoint number (s : string) (acc : Z) (n : nat) : Z * nat * string :=
  match s with
  | String c s' =>
      match digit c with
      | Some d => number s' (10 * acc + d)%Z (S n)
      | None => (acc, n, s)
      end
  | EmptyString => (acc, n, s)
  end.

Definition sign (s : string) : bool * string :=
  match s with
  | String "-" r => (true, r)
  | String "+" r => (false, r)
  | _ => (false, s)
  end.

(** [needle in haystack] of Python. *)
Fixpoint contains (needle haystack : string) : bool :=
  String.prefix needle haystack ||
  match haystack with
  | String _ rest => contains needle rest
  | EmptyString => false
  end.

End Text.

(** [sys.int_info.default_max_str_digits]: longer decimal texts are a
    [ValueError] of [int]. *)
Definition max_str_digits : nat := 4300.

(** [int(text)] on a [str]: [None] stands for [ValueError]. *)
Definition py_int (text : string) : option Z :=
  let '(neg, s) := Text.sign (Text.strip text) in
  match Text.digits s 0 0 false with
  | Some (v, n, EmptyString) =>
      if ((0 <? n) && (n <=? max_str_digits))%nat
      then Some (if neg then (- v)%Z else v)
      else None
  | _ => None
  end.

(** The binary64 value nearest to [m * 10 ^ e], ties to even, for [m > 0]:
    the rounding of a decimal literal.  A negative exponent is a division,
    carried far enough (64 bits and a sticky bit) for the rounding to 53
    bits to be that of the exact quotient. *)
Definition nearest (m e : Z) : spec_float :=
  if (310 <? Z.log2 m * 30102 / 100000 + e)%Z then S754_infinity false
  else if ((Z.log2 m + 1) * 30103 / 100000 + 1 + e <? -330)%Z then S754_zero false
  else if (0 <=? e)%Z then binary_normalize prec emax (m * 10 ^ e) 0 false
  else
    let d := (10 ^ (- e))%Z in
    let s := Z.max 0 (Z.log2 d - Z.log2 m + 66) in
    let q := (m * 2 ^ s / d)%Z in
    let sticky := if (m * 2 ^ s mod d =? 0)%Z then 0%Z else 1%Z in
    binary_normalize prec emax (2 * q + sticky) (- s - 1) false.

(** [m * 10 ^ e] with its sign, as a [float]. *)
Definition decimal (neg : bool) (m e : Z) : float :=
  let x := if (m =? 0)%Z then zero else SF2Prim (nearest m e) in
  if neg then (- x)%float else x.

Definition lower (c : ascii) : ascii :=
  let n := nat_of_ascii c in
  if ((65 <=? n) && (n <=? 90))%nat then ascii_of_nat (n + 32) else c.

Definition lowercase (s : string) : string :=
  string_of_list_ascii (map lower (list_ascii_of_string s)).

(** [float(text)] on a [str] (or on [bytes], which [float] reads the same
    way): a decimal literal, [inf], [infinity] or [nan], with a sign and
    blanks around it; [None] stands for [ValueError]. *)
Definition py_float (text : string) : option float :=
  let '(neg, s) := Text.sign (Text.strip text) in
  let name := lowercase s in
  if String.eqb name "inf" || String.eqb name "infinity"
  then Some (if neg then neg_infinity else infinity)
  else if String.eqb name "nan" then Some nan
  else
  '(ip, n1, s) ← Text.digits s 0 0 false;
  '(fp, n2, s) ← match s with
                 | String "." r => Text.digits r 0 0 false
                 | _ => Some (0%Z, 0%nat, s)
                 end;
  if (n1 + n2 =? 0)%nat then None else
  '(ex, s) ← match s with
             | String "e" r | String "E" r =>
                 let '(eneg, r) := Text.sign r in
                 '(e, n3, r) ← Text.digits r 0 0 false;
                 if (n3 =? 0)%nat then None
                 else Some (if eneg then (- e)%Z else e, r)
             | _ => Some (0%Z, s)
             end;
  match s with
  | EmptyString =>
      Some (decimal neg (ip * 10 ^ Z.of_nat n2 + fp) (ex - Z.of_nat n2))
  | _ => None
  end.

(** Days of the proleptic Gregorian calendar before 1 January of year [y]. *)
Definition days_before_year (y : Z) : Z :=
  let p := (y - 1)%Z in (365 * p + p / 4 - p / 100 + p / 400)%Z.

(** [date.max.toordinal()], 31 December 9999. *)
Definition max_ordinal : Z := 3652059.

(** A literal of the format; the pattern is compiled with [re.IGNORECASE]. *)
Definition expect (lower upper : ascii) (s : string) : option string :=
  match s with
  | String c r => if Ascii.eqb c lower || Ascii.eqb c upper then Some r else None
  | EmptyString => None
  end.

Definition field (lo hi : nat) (max : Z) (s : string) : option (Z * nat * string) :=
  let '(v, n, r) := Text.number s 0 0 in
  if ((lo <=? n) && (n <=? hi))%nat && (v <=? max)%Z then Some (v, n, r) else None.

(** [datetime.strptime(text, "%Y-%jT%H:%M:%S.%fZ")], as the number of
    microseconds since the start of 1 January of year 1; [None] stands for
    [ValueError]. *)
Definition strptime (text : string) : option Z :=
  '(year, _, s) ← field 4 4 9999 text;
  s ← expect "-" "-" s;
  '(julian, _, s) ← field 1 3 366 s;
  s ← expect "t" "T" s;
  '(hour, _, s) ← field 1 2 23 s;
  s ← expect ":" ":" s;
  '(minute, _, s) ← field 1 2 59 s;
  s ← expect ":" ":" s;
  '(second, _, s) ← field 1 2 61 s;
  s ← expect "." "." s;
  '(fraction, nf, s) ← field 1 6 999999 s;
  s ← expect "z" "Z" s;
  match s with
  | EmptyString =>
      let ordinal := (days_before_year year + julian)%Z in
      if (1 <=? julian)%Z && (1 <=? year)%Z && (ordinal <=? max_ordinal)%Z
         && (second <=? 59)%Z
      then Some (((((ordinal - 1) * 24 + hour) * 60 + minute) * 60 + second) * 1000000
                 + fraction * 10 ^ Z.of_nat (6 - nf))%Z
      else None
  | _ => None
  end.

(** ** Text and bytes *)

(** A [bytes] value: the encoding of the text that was written to Redis. *)
Definition bytes : Type := string.

(** A Python string, [str] or [bytes].  The two are never equal to each
    other, whatever they hold. *)
Inductive pystr : Type :=
  | Str (text : string)
  | Bytes (payload : bytes).

Coercion Str : string >-> pystr.

#[global] Instance pystr_eq_dec : EqDecision pystr.
Proof. solve_decision. Defined.

Definition is_text (value : pystr) : bool :=
  match value with
  | Str _ => true
  | Bytes _ => false
  end.

(** [repr] of a [bytes] value. *)
Module Repr.

Definition backslash : ascii := ascii_of_nat 92.
Definition single_quote : ascii := ascii_of_nat 39.
Definition double_quote : ascii := ascii_of_nat 34.

Definition hex (n : nat) : ascii :=
  ascii_of_nat (if (n <? 10)%nat then 48 + n else 87 + n).

Definition escape (quote c : ascii) : string :=
  let n := nat_of_ascii c in
  if Ascii.eqb c quote || Ascii.eqb c backslash
  then String backslash (String c EmptyString)
  else if (n =? 9)%nat then String backslash "t"
  else if (n =? 10)%nat then String backslash "n"
  else if (n =? 13)%nat then String backslash "r"
  else if (n <? 32)%nat || (127 <=? n)%nat
  then String backslash
         (String "x" (String (hex (n / 16)) (String (hex (n mod 16)) EmptyString)))
  else String c EmptyString.

Fixpoint escaped (quote : ascii) (payload : string) : string :=
  match payload with
  | EmptyString => EmptyString
  | String c rest => escape quote c +:+ escaped quote rest
  end.

Fixpoint has (c : ascii) (payload : string) : bool :=
  match payload with
  | EmptyString => false
  | String c' rest => Ascii.eqb c c' || has c rest
  end.

Definition bytes (payload : string) : string :=
  let quote :=
    if has single_quote payload && negb (has double_quote payload)
    then double_quote else single_quote in
  String "b" (String quote (escaped quote payload +:+ String quote EmptyString)).

End Repr.

(** [str(value)], which is what an f-string puts in place of [{value}]. *)
Definition format (value : pystr) : string :=
  match value with
  | Str text => text
  | Bytes payload => Repr.bytes payload
  end.

(** ** Data model *)

(** A [stateVector] element of the feed: [findtext] of each child, [None]
    when the child is missing. *)
Module stateVector.
Record t : Type := Build {
  EPOCH : option string;
  X : option string;
  Y : option string;
  Z : option string;
  X_DOT : option string;
  Y_DOT : option string;
  Z_DOT : option string }.
End stateVector.

(** The mapping that [read_data] hands to [hset] for the key
    [iss_data:<epoch>]. *)
Module Hash.
Record t : Type := Build {
  epoch : string;
  x : float;
  y : float;
  z : float;
  x_dot : float;
  y_dot : float;
  z_dot : float }.
End Hash.

Module Position.
Record t : Type := Build { x : float; y : float; z : float }.
End Position.

Module Velocity.
Record t : Type := Build { x_dot : float; y_dot : float; z_dot : float }.
End Velocity.

Module StateVector.
Record t : Type := Build {
  epoch : pystr;
  position : Position.t;
  velocity : Velocity.t }.
End StateVector.

Module Speed.
Record t : Type := Build { epoch : pystr; speed : float }.
End Speed.

Module Location.
Record t : Type := Build {
  epoch : pystr;
  latitude : float;
  longitude : float;
  altitude : float;
  geoposition : string }.
End Location.

Module Now.
Record t : Type := Build {
  epoch : pystr;
  speed : float;
  latitude : float;
  longitude : float;
  altitude : float;
  geoposition : string }.
End Now.

(** ** The store and the collaborators *)

(** What [requests.get(url)] followed by [ET.fromstring] and
    [findall(".//stateVector")] gives: an exception of either call, or the
    [stateVector] elements in document order. *)
Inductive Fetch : Type :=
  | FetchRaises (e : exn)
  | Document (elements : list stateVector.t).

(** What [geolocator.reverse] gives. *)
Inductive Geocoded : Type :=
  | GeoRaises (e : exn)
  | GeoNone
  | GeoLocation (address : string).

(** What a call of the C library leaves in [errno]. *)
Inductive Errno : Type :=
  | NoError
  | EDOM
  | ERANGE.

(** The functions of the C library behind [**] and [math]. *)
Record Libm : Type := {
  c_pow : float → float → float * Errno;
  c_asin : float → float;
  c_atan2 : float → float → float }.

Record Env : Type := {
  (** the answer to the n-th request of the feed *)
  requests_get : nat → Fetch;
  (** the geocoder, asked for a latitude and a longitude (degrees) *)
  geolocator_reverse : float → float → Geocoded;
  (** [datetime.now()], in microseconds on the scale of [strptime] *)
  datetime_now : Z;
  (** the C library of the platform *)
  libm : Libm;
  (** [repr] of a float *)
  float_repr : float → string }.

Record World : Type := {
  (** the Redis hashes, by key *)
  hashes : gmap string Hash.t;
  (** the Redis list [iss_epochs] *)
  iss_epochs : list bytes;
  (** how many times the feed has been requested *)
  requested : nat }.

Definition empty_world : World :=
  {| hashes := ∅; iss_epochs := []; requested := 0 |}.

#[global] Instance Result_ret : MRet Result := λ A a, Ok a.

#[global] Instance Result_bind : MBind Result := λ A B f m,
  match m with
  | Ok a => f a
  | Raise e => Raise e
  end.

Definition Py (A : Type) : Type := World → Result A * World.

#[global] Instance Py_ret : MRet Py := λ A a w, (Ok a, w).

#[global] Instance Py_bind : MBind Py := λ A B f m w,
  match m w with
  | (Ok a, w') => f a w'
  | (Raise e, w') => (Raise e, w')
  end.

Definition raise {A : Type} (e : exn) : Py A := λ w, (Raise e, w).

(** The outcome of a computation that does not touch the store. *)
Definition pure {A : Type} (outcome : Result A) : Py A := λ w, (outcome, w).

(** [for a in l: body(a)] *)
Fixpoint for_each {A : Type} (body : A → Py unit) (l : list A) : Py unit :=
  match l with
  | [] => mret tt
  | a :: l' => body a;; for_each body l'
  end.

(** [[body(a) for a in l]] *)
Fixpoint comprehension {A B : Type} (body : A → Py B) (l : list A) : Py (list B) :=
  match l with
  | [] => mret []
  | a :: l' => b ← body a; bs ← comprehension body l'; mret (b :: bs)
  end.

(** *** Redis commands *)

(** [hset(name, mapping=...)]: the mapping is kept as it was given; its
    encoding is that of [hgetall] below. *)
Definition hset (name : string) (mapping : Hash.t) : Py unit :=
  λ w, (Ok tt, {| hashes := <[name := mapping]> (hashes w);
                  iss_epochs := iss_epochs w;
                  requested := requested w |}).

(** [rpush("iss_epochs", value)]: the text goes into the list as bytes. *)
Definition rpush (value : string) : Py unit :=
  λ w, (Ok tt, {| hashes := hashes w;
                  iss_epochs := iss_epochs w ++ [value];
                  requested := requested w |}).

(** [lrange("iss_epochs", 0, -1)]: a list of [bytes]. *)
Definition lrange_all : Py (list bytes) := λ w, (Ok (iss_epochs w), w).

(** The dict that [hgetall] builds from a stored mapping: the names and the
    values are [bytes], a float having been written as its [repr]. *)
Definition encode (repr : float → string) (mapping : Hash.t)
  : list (pystr * pystr) :=
  [ (Bytes "epoch", Bytes (Hash.epoch mapping));
    (Bytes "x", Bytes (repr (Hash.x mapping)));
    (Bytes "y", Bytes (repr (Hash.y mapping)));
    (Bytes "z", Bytes (repr (Hash.z mapping)));
    (Bytes "x_dot", Bytes (repr (Hash.x_dot mapping)));
    (Bytes "y_dot", Bytes (repr (Hash.y_dot mapping)));
    (Bytes "z_dot", Bytes (repr (Hash.z_dot mapping))) ].

(** [hgetall(name)]; the empty dict for a missing key. *)
Definition hgetall (repr : float → string) (name : string)
  : Py (list (pystr * pystr)) :=
  λ w, (Ok match hashes w !! name with
           | Some mapping => encode repr mapping
           | None => []
           end, w).

(** [f"iss_data:{epoch}"], for the text that [epoch] is formatted as. *)
Definition iss_data (epoch : string) : string := "iss_data:" +:+ epoch.

(** *** Python dicts and sequences *)

Fixpoint dict_get (key : pystr) (data : list (pystr * pystr)) : option pystr :=
  match data with
  | [] => None
  | (k, v) :: rest => if decide (k = key) then Some v else dict_get key rest
  end.

(** [data[key]] *)
Definition getitem (data : list (pystr * pystr)) (key : pystr) : Py pystr :=
  match dict_get key data with
  | Some value => mret value
  | None => raise (KeyError (format key))
  end.

(** [l[offset:]] *)
Definition slice_from {A : Type} (l : list A) (offset : Z) : list A :=
  if (0 <=? offset)%Z then drop (Z.to_nat offset) l
  else drop (Z.to_nat (Z.of_nat (length l) + offset)) l.

(** [l[:limit]] *)
Definition slice_to {A : Type} (l : list A) (limit : Z) : list A :=
  if (0 <=? limit)%Z then take (Z.to_nat limit) l
  else take (Z.to_nat (Z.of_nat (length l) + limit)) l.

(** [min(l)] of a non-empty list *)
Definition py_min (d : Z) (l : list Z) : Z := fold_left Z.min l d.

(** [l.index(v)] *)
Fixpoint py_index (v : Z) (l : list Z) : option nat :=
  match l with
  | [] => None
  | d :: l' => if (d =? v)%Z then Some 0%nat else S <$> py_index v l'
  end.

(** [datetime.strptime(value, "%Y-%jT%H:%M:%S.%fZ")]: the argument must be
    a [str]. *)
Definition datetime_strptime (value : pystr) : Py Z :=
  match value with
  | Bytes _ => raise TypeError
  | Str text =>
      match strptime text with
      | Some t => mret t
      | None => raise ValueError
      end
  end.

(** [float(value)] of a [str] or a [bytes] *)
Definition float_of_pystr (value : pystr) : Py float :=
  match py_float match value with Str text => text | Bytes payload => payload end with
  | Some x => mret x
  | None => raise ValueError
  end.

(** *** Arithmetic *)

Module Math.

Local Open Scope float_scope.

Definition pi : float := 0x1.921fb54442d18p+1.

(** [copysign(a, b)] *)
Definition copysign (a b : float) : float :=
  if get_sign b then - abs a else abs a.

(** [x ** 2] on a float, [float_pow] of CPython: the special cases are its
    own, a finite [x] other than 0, 1 and -1 goes to [pow] of the C
    library, and what that call leaves in [errno] decides on an
    exception. *)
Definition pow2 (libm : Libm) (x : float) : Result float :=
  if is_nan x then Ok x
  else if is_infinity x then Ok (abs x)
  else if x =? 0 then Ok 0
  else if abs x =? 1 then Ok 1
  else
    let '(ix, e) := c_pow libm (abs x) 2 in
    let e := match e with
             | NoError => if is_infinity ix then ERANGE else NoError
             | ERANGE => if ix =? 0 then NoError else ERANGE
             | EDOM => EDOM
             end in
    match e with
    | NoError => Ok ix
    | ERANGE => Raise OverflowError
    | EDOM => Raise ValueError
    end.

(** [math.sqrt] *)
Definition sqrt (x : float) : Result float :=
  let r := PrimFloat.sqrt x in
  if is_nan r && negb (is_nan x) then Raise ValueError else Ok r.

(** [math.asin] *)
Definition asin (libm : Libm) (x : float) : Result float :=
  let r := c_asin libm x in
  if is_nan r && negb (is_nan x) then Raise ValueError
  else if is_infinity r && is_finite x then Raise ValueError
  else Ok r.

(** [math.atan2]: the infinities and the zeros are settled by CPython, the
    rest by the C library. *)
Definition atan2 (libm : Libm) (y x : float) : Result float :=
  let r :=
    if is_nan x || is_nan y then nan
    else if is_infinity y then
      if is_infinity x then
        if get_sign x then copysign (0.75 * pi) y else copysign (0.25 * pi) y
      else copysign (0.5 * pi) y
    else if is_infinity x || (y =? 0) then
      if get_sign x then copysign pi y else copysign 0 y
    else c_atan2 libm y x in
  if is_nan r then
    if is_nan x || is_nan y then Ok r else Raise ValueError
  else if is_infinity r then
    if is_finite x && is_finite y then Raise OverflowError else Ok r
  else Ok r.

(** [math.degrees] *)
Definition degrees (x : float) : float := x * (180 / pi).

(** [a / b] on floats *)
Definition div (a b : float) : Result float :=
  if b =? 0 then Raise ZeroDivisionError else Ok (a / b).

End Math.

Definition earth_radius : float := 6371.

(** [calculate_speed(velocity)], the helper of [get_speed_epoch] and of
    [print_speeds]. *)
Definition calculate_speed (libm : Libm) (velocity : Velocity.t) : Result float :=
  a ← Math.pow2 libm (Velocity.x_dot velocity);
  b ← Math.pow2 libm (Velocity.y_dot velocity);
  c ← Math.pow2 libm (Velocity.z_dot velocity);
  Math.sqrt (a + b + c).

(** The conversion from Cartesian to spherical coordinates inside
    [get_location_epoch]: latitude, longitude, altitude. *)
Definition spherical (libm : Libm) (position : Position.t)
  : Result (float * float * float) :=
  let x := Position.x position in
  let y := Position.y position in
  let z := Position.z position in
  a ← Math.pow2 libm x;
  b ← Math.pow2 libm y;
  c ← Math.pow2 libm z;
  r ← Math.sqrt (a + b + c);
  angle ← Math.atan2 libm y x;
  let longitude := Math.degrees angle in
  q ← Math.div z r;
  angle ← Math.asin libm q;
  let latitude := Math.degrees angle in
  let altitude := (r - earth_radius)%float in
  Ok (latitude, longitude, altitude).

(** ** The tracker *)

Section ISSTracker.

Variable env : Env.

(** [float(state_vector.findtext(tag))] *)
Definition to_float (text : option string) : Py float :=
  match text with
  | None => raise TypeError
  | Some s =>
      match py_float s with
      | Some r => mret r
      | None => raise ValueError
      end
  end.

(** The body of the loop of [read_data]: the mapping is built first, then
    [hset] refuses a [None] epoch, then the epoch is pushed. *)
Definition store_state_vector (state_vector : stateVector.t) : Py unit :=
  let epoch := stateVector.EPOCH state_vector in
  x ← to_float (stateVector.X state_vector);
  y ← to_float (stateVector.Y state_vector);
  z ← to_float (stateVector.Z state_vector);
  x_dot ← to_float (stateVector.X_DOT state_vector);
  y_dot ← to_float (stateVector.Y_DOT state_vector);
  z_dot ← to_float (stateVector.Z_DOT state_vector);
  match epoch with
  | None => raise DataError
  | Some epoch =>
      hset (iss_data epoch)
           {| Hash.epoch := epoch; Hash.x := x; Hash.y := y; Hash.z := z;
              Hash.x_dot := x_dot; Hash.y_dot := y_dot; Hash.z_dot := z_dot |};;
      rpush epoch
  end.

(** [requests.get(self.url)], [ET.fromstring] and [findall] *)
Definition fetch : Py (list stateVector.t) :=
  λ w,
    let w' := {| hashes := hashes w; iss_epochs := iss_epochs w;
                 requested := S (requested w) |} in
    match requests_get env (requested w) with
    | FetchRaises e => (Raise e, w')
    | Document elements => (Ok elements, w')
    end.

Definition read_data : Py unit :=
  elements ← fetch;
  for_each store_state_vector elements.

Definition epochs : Py (list bytes) :=
  read_data;;
  lrange_all.

Definition epochs_limited (limit offset : Z) : Py (list bytes) :=
  read_data;;
  epochs ← lrange_all;
  let epochs := slice_from epochs offset in
  let epochs := slice_to epochs limit in
  mret epochs.

(** The argument is a [str] when it comes from a URL and a [bytes] when it
    comes from the list of epochs; either is formatted into the key.  The
    names that the dict is asked for are [str]. *)
Definition get_state_vector_epoch (epoch : pystr) : Py (option StateVector.t) :=
  read_data;;
  data ← hgetall (float_repr env) (iss_data (format epoch));
  match data with
  | [] => mret None
  | _ :: _ =>
      epoch ← getitem data "epoch";
      x ← getitem data "x" ≫= float_of_pystr;
      y ← getitem data "y" ≫= float_of_pystr;
      z ← getitem data "z" ≫= float_of_pystr;
      x_dot ← getitem data "x_dot" ≫= float_of_pystr;
      y_dot ← getitem data "y_dot" ≫= float_of_pystr;
      z_dot ← getitem data "z_dot" ≫= float_of_pystr;
      mret (Some {| StateVector.epoch := epoch;
                    StateVector.position :=
                      {| Position.x := x; Position.y := y; Position.z := z |};
                    StateVector.velocity :=
                      {| Velocity.x_dot := x_dot; Velocity.y_dot := y_dot;
                         Velocity.z_dot := z_dot |} |})
  end.

(** The line that is printed when nothing is found is not kept. *)
Definition get_speed_epoch (epoch : pystr) : Py (option Speed.t) :=
  state_vector ← get_state_vector_epoch epoch;
  match state_vector with
  | Some state_vector =>
      speed ← pure (calculate_speed (libm env) (StateVector.velocity state_vector));
      mret (Some {| Speed.epoch := epoch; Speed.speed := speed |})
  | None => mret None
  end.

(** The reverse geocoding of [get_location_epoch], with its [try]. *)
Definition geoposition_of (latitude longitude : float) : string :=
  match geolocator_reverse env latitude longitude with
  | GeoLocation address => address
  | GeoNone => "Over water or uninhabited area"
  | GeoRaises _ => "Location data unavalible"
  end.

Definition get_location_epoch (epoch : pystr) : Py (option Location.t) :=
  state_vector ← get_state_vector_epoch epoch;
  match state_vector with
  | None => mret None
  | Some state_vector =>
      '(latitude, longitude, altitude) ←
        pure (spherical (libm env) (StateVector.position state_vector));
      let geoposition := geoposition_of latitude longitude in
      mret (Some {| Location.epoch := epoch;
                    Location.latitude := latitude;
                    Location.longitude := longitude;
                    Location.altitude := altitude;
                    Location.geoposition := geoposition |})
  end.

(** [abs(datetime.strptime(epoch, ...) - now)], in microseconds *)
Definition timediff (now : Z) (epoch : pystr) : Py Z :=
  t ← datetime_strptime epoch;
  mret (Z.abs (t - now)).

Definition print_closest_epoch : Py (option StateVector.t) :=
  let now := datetime_now env in
  epochs ← epochs;
  match epochs with
  | [] => mret None
  | _ :: _ =>
      timediffdata ← comprehension (λ epoch, timediff now (Bytes epoch)) epochs;
      match timediffdata with
      | [] => raise ValueError
      | d :: ds =>
          let smallest_diff := py_min d ds in
          match py_index smallest_diff timediffdata with
          | None => raise ValueError
          | Some i =>
              match epochs !! i with
              | None => raise IndexError
              | Some closest_epoch => get_state_vector_epoch (Bytes closest_epoch)
              end
          end
      end
  end.

Definition get_now : Py (option Now.t) :=
  closest ← print_closest_epoch;
  match closest with
  | None => mret None
  | Some closest =>
      let epoch := StateVector.epoch closest in
      speed ← get_speed_epoch epoch;
      match speed with
      | None => raise TypeError
      | Some speed =>
          let speed := Speed.speed speed in
          location ← get_location_epoch epoch;
          match location with
          | None => raise TypeError
          | Some location =>
              mret (Some {| Now.epoch := epoch;
                            Now.speed := speed;
                            Now.latitude := Location.latitude location;
                            Now.longitude := Location.longitude location;
                            Now.altitude := Location.altitude location;
                            Now.geoposition := Location.geoposition location |})
          end
      end
  end.

(** ** The HTTP routes *)

(** What a view returns. *)
Inductive Json : Type :=
  | JError (error : string)
  (** [{"error": str(e)}] *)
  | JException (e : exn)
  | JEpochs (epochs : list bytes)
  | JStateVector (data : StateVector.t)
  | JSpeed (data : Speed.t)
  | JLocation (data : Location.t)
  | JNow (data : Now.t)
  (** the page of Flask's own 500 *)
  | JInternalServerError.

Record Response : Type := { body : Json; status : Z }.

(** A view returning [data] alone answers 200. *)
Definition OK (data : Json) : Response := {| body := data; status := 200 |}.

(** Whether [json.dumps] takes the value: it takes a [str] and refuses a
    [bytes]. *)
Definition serializable (data : Json) : bool :=
  match data with
  | JError _ | JException _ | JInternalServerError => true
  | JEpochs epochs => forallb is_text (Bytes <$> epochs)
  | JStateVector data => is_text (StateVector.epoch data)
  | JSpeed data => is_text (Speed.epoch data)
  | JLocation data => is_text (Location.epoch data)
  | JNow data => is_text (Now.epoch data)
  end.

(** What Flask sends for the value of a view: the value as JSON, or its
    own 500 when the value cannot be made into JSON.  This happens after
    the view has returned, outside its [try]. *)
Definition internal_server_error : Response :=
  {| body := JInternalServerError; status := 500 |}.

Definition make_response (response : Response) : Response :=
  if serializable (body response) then response else internal_server_error.

(** [try: view except Exception as e: return {"error": str(e)}, 500],
    followed by Flask. *)
Definition route (view : Py Response) : World → Response * World :=
  λ w, match view w with
       | (Ok response, w') => (make_response response, w')
       | (Raise e, w') => ({| body := JException e; status := 500 |}, w')
       end.

Definition epoch_limit_data (limit offset : option string)
  : World → Response * World :=
  route
    match limit, offset with
    | Some limit, Some offset =>
        match py_int limit with
        | None => mret {| body := JError "Limit and offset must be integers";
                          status := 400 |}
        | Some limit =>
            match py_int offset with
            | None => mret {| body := JError "Limit and offset must be integers";
                              status := 400 |}
            | Some offset =>
                if (limit <? 0)%Z || (offset <? 0)%Z
                then mret {| body := JError "Limit and offset must be non-negative integers";
                             status := 400 |}
                else epochs ← epochs_limited limit offset; mret (OK (JEpochs epochs))
            end
        end
    | _, _ => epochs ← epochs; mret (OK (JEpochs epochs))
    end.

Definition not_found (epoch : string) : Response :=
  {| body := JError ("Epoch not found: " +:+ epoch); status := 404 |}.

Definition epoch_data (epoch : string) : World → Response * World :=
  route (data ← get_state_vector_epoch epoch;
         match data with
         | None => mret (not_found epoch)
         | Some data => mret (OK (JStateVector data))
         end).

Definition epoch_speed (epoch : string) : World → Response * World :=
  route (data ← get_speed_epoch epoch;
         match data with
         | None => mret (not_found epoch)
         | Some data => mret (OK (JSpeed data))
         end).

Definition epoch_location (epoch : string) : World → Response * World :=
  route (data ← get_location_epoch epoch;
         match data with
         | None => mret (not_found epoch)
         | Some data => mret (OK (JLocation data))
         end).

Definition now_data : World → Response * World :=
  route (data ← get_now;
         match data with
         | None => mret {| body := JError "Could not determine current ISS data";
                           status := 500 |}
         | Some data => mret (OK (JNow data))
         end).

End ISSTracker.

(** ** The store as the specification describes it

    [put] is the upsert of one record with the append of its epoch; [load]
    is a run of [put]s.  The loader is related to them below. *)

Definition put (record : Hash.t) (w : World) : World :=
  {| hashes := <[iss_data (Hash.epoch record) := record]> (hashes w);
     iss_epochs := iss_epochs w ++ [Hash.epoch record];
     requested := requested w |}.

Definition load (records : list Hash.t) (w : World) : World :=
  fold_left (λ w record, put record w) records w.

(** The world once one more request of the feed has been issued. *)
Definition tick (w : World) : World :=
  {| hashes := hashes w; iss_epochs := iss_epochs w; requested := S (requested w) |}.

Definition float_of (text : option string) : Result float :=
  match text with
  | None => Raise TypeError
  | Some s =>
      match py_float s with
      | Some r => Ok r
      | None => Raise ValueError
      end
  end.

(** The mapping that [read_data] builds for one element, or the exception
    that building or storing it raises. *)
Definition mapping_of (state_vector : stateVector.t) : Result Hash.t :=
  match float_of (stateVector.X state_vector) with Raise e => Raise e | Ok x =>
  match float_of (stateVector.Y state_vector) with Raise e => Raise e | Ok y =>
  match float_of (stateVector.Z state_vector) with Raise e => Raise e | Ok z =>
  match float_of (stateVector.X_DOT state_vector) with Raise e => Raise e | Ok x_dot =>
  match float_of (stateVector.Y_DOT state_vector) with Raise e => Raise e | Ok y_dot =>
  match float_of (stateVector.Z_DOT state_vector) with Raise e => Raise e | Ok z_dot =>
  match stateVector.EPOCH state_vector with
  | None => Raise DataError
  | Some epoch =>
      Ok {| Hash.epoch := epoch; Hash.x := x; Hash.y := y; Hash.z := z;
            Hash.x_dot := x_dot; Hash.y_dot := y_dot; Hash.z_dot := z_dot |}
  end end end end end end end.

(** An element is stored as [record]. *)
Definition stored_as (state_vector : stateVector.t) (record : Hash.t) : Prop :=
  mapping_of state_vector = Ok record.

(** One of the six numeric fields is present and is not a number. *)
Definition malformed (state_vector : stateVector.t) : Prop :=
  ∃ text, py_float text = None ∧
    Some text ∈ [stateVector.X state_vector; stateVector.Y state_vector;
                 stateVector.Z state_vector; stateVector.X_DOT state_vector;
                 stateVector.Y_DOT state_vector; stateVector.Z_DOT state_vector].

(** Every epoch of the index has its hash, and a hash sits under the key of
    its own epoch. *)
Definition consistent (w : World) : Prop :=
  (∀ epoch, epoch ∈ iss_epochs w → is_Some (hashes w !! iss_data epoch)) ∧
  (∀ epoch data, hashes w !! iss_data epoch = Some data → Hash.epoch data = epoch).

(** ** Sample data: a feed of two state vectors, and a feed with a bad field *)

Definition epoch_12 : string := "2024-079T12:00:00.000Z".
Definition epoch_13 : string := "2024-079T13:00:00.000Z".

Definition sample_feed : list stateVector.t :=
  [ {| stateVector.EPOCH := Some epoch_12;
       stateVector.X := Some "1.0"; stateVector.Y := Some "2.0";
       stateVector.Z := Some "3.0"; stateVector.X_DOT := Some "3.0";
       stateVector.Y_DOT := Some "4.0"; stateVector.Z_DOT := Some "5.0" |};
    {| stateVector.EPOCH := Some epoch_13;
       stateVector.X := Some "4.0"; stateVector.Y := Some "5.0";
       stateVector.Z := Some "6.0"; stateVector.X_DOT := Some "6.0";
       stateVector.Y_DOT := Some "8.0"; stateVector.Z_DOT := Some "10.0" |} ].

Definition broken_feed : list stateVector.t :=
  [ {| stateVector.EPOCH := Some epoch_12;
       stateVector.X := Some "1.0"; stateVector.Y := Some "2.0";
       stateVector.Z := Some "3.0"; stateVector.X_DOT := Some "3.0";
       stateVector.Y_DOT := Some "4.0"; stateVector.Z_DOT := Some "5.0" |};
    {| stateVector.EPOCH := Some epoch_13;
       stateVector.X := Some "abc"; stateVector.Y := Some "5.0";
       stateVector.Z := Some "6.0"; stateVector.X_DOT := Some "6.0";
       stateVector.Y_DOT := Some "8.0"; stateVector.Z_DOT := Some "10.0" |} ].

(** 12:30 on day 79 of 2024. *)
Definition half_past_12 : Z := 63846448200000000.

(** A C library and a [repr] for the sample runs, none of which reaches
    them: [pow] is the product, [asin] and [atan2] answer NaN, [repr]
    prints a mark. *)
Definition sample_libm : Libm :=
  {| c_pow := λ x y, ((x * x)%float, NoError);
     c_asin := λ _, nan;
     c_atan2 := λ _ _, nan |}.

Definition sample_repr (x : float) : string := "?".

Definition env_of (feed : list stateVector.t) (answer : Geocoded) : Env :=
  {| requests_get := λ _, Document feed;
     geolocator_reverse := λ _ _, answer;
     datetime_now := half_past_12;
     libm := sample_libm;
     float_repr := sample_repr |}.

Definition sample_env : Env := env_of sample_feed (GeoLocation "Test Location, Earth").
Definition broken_env : Env := env_of broken_feed GeoNone.
(** The sample feed with a geocoder that is out of reach. *)
Definition offline_geocoder : Env :=
  env_of sample_feed (GeoRaises (GeocoderError "timed out")).
Definition offline_env : Env :=
  {| requests_get := λ _, FetchRaises (FeedError "connection refused");
     geolocator_reverse := λ _ _, GeoRaises (GeocoderError "timed out");
     datetime_now := half_past_12;
     libm := sample_libm;
     float_repr := sample_repr |}.

(** The store after one to four loads of the sample feed. *)
Definition loaded_once : World := snd (read_data sample_env empty_world).
Definition loaded_twice : World := snd (read_data sample_env loaded_once).
Definition loaded_thrice : World := snd (read_data sample_env loaded_twice).
Definition loaded_four_times : World := snd (read_data sample_env loaded_thrice).



(** ** Further notions for the properties of the store *)

(** The record that a run of [put]s leaves for [epoch]: the last one of that
    epoch, if any. *)
Definition latest (epoch : string) (records : list Hash.t) : option Hash.t :=
  last (filter (λ record, Hash.epoch record = epoch) records).

(** A feed that always answers the same document. *)
Definition steady (env : Env) (elements : list stateVector.t) : Prop :=
  ∀ n, requests_get env n = Document elements.

(** [w'] keeps what [w] holds: every hash of [w] is still there (perhaps
    overwritten), the index of [w] is a prefix of that of [w'], and the
    invariant of the store is not lost. *)
Definition extends (w w' : World) : Prop :=
  (∀ key, is_Some (hashes w !! key) → is_Some (hashes w' !! key)) ∧
  (∃ epochs, iss_epochs w' = iss_epochs w ++ epochs) ∧
  (consistent w → consistent w').

(** A computation that only ever extends the store, whatever its outcome. *)
Definition monotone {A : Type} (m : Py A) : Prop :=
  ∀ w outcome w', m w = (outcome, w') → extends w w'.



(** ** The analysis that prints *)

(** A run that prints: the store and the lines printed so far, one per
    call of [print].  A line stays printed when an exception follows. *)
Definition Console : Type := World * list string.

Definition Script (A : Type) : Type := Console → Result A * Console.

#[global] Instance Script_ret : MRet Script := λ A a c, (Ok a, c).

#[global] Instance Script_bind : MBind Script := λ A B f m c,
  match m c with
  | (Ok a, c') => f a c'
  | (Raise e, c') => (Raise e, c')
  end.

(** A call that does not print. *)
Definition lift {A : Type} (m : Py A) : Script A :=
  λ c, let '(outcome, w') := m (fst c) in (outcome, (w', snd c)).

Definition print (line : string) : Script unit :=
  λ c, (Ok tt, (fst c, snd c ++ [line])).

Definition throw {A : Type} (e : exn) : Script A := λ c, (Raise e, c).

(** *** [strftime("%B %d, %Y at %I:%M:%S %p")] *)

Definition digit_char (d : Z) : ascii := ascii_of_nat (48 + Z.to_nat d).

(** [%d], [%I], [%M], [%S]: two digits. *)
Definition two_digits (n : Z) : string :=
  String (digit_char (n / 10)) (String (digit_char (n mod 10)) "").

(** [%Y] as the C library prints it: the year without padding. *)
Definition year_text (y : Z) : string :=
  (if (1000 <=? y)%Z then String (digit_char (y / 1000)) "" else "")
  +:+ (if (100 <=? y)%Z then String (digit_char (y / 100 mod 10)) "" else "")
  +:+ (if (10 <=? y)%Z then String (digit_char (y / 10 mod 10)) "" else "")
  +:+ String (digit_char (y mod 10)) "".

(** [%B] *)
Definition month_name (month : Z) : string :=
  match month with
  | 1 => "January" | 2 => "February" | 3 => "March" | 4 => "April"
  | 5 => "May" | 6 => "June" | 7 => "July" | 8 => "August"
  | 9 => "September" | 10 => "October" | 11 => "November" | _ => "December"
  end%Z.

Definition days_in_month (leap : bool) (month : Z) : Z :=
  match month with
  | 2 => if leap then 29 else 28
  | 4 | 6 | 9 | 11 => 30
  | _ => 31
  end%Z.

(** The days of the year before the first day of [month]. *)
Definition days_before_month (leap : bool) (month : Z) : Z :=
  fold_left (λ days m, days + days_in_month leap (Z.of_nat m))%Z
            (seq 1 (Z.to_nat month - 1)) 0%Z.

(** The year, month and day of an ordinal, as [datetime] computes them from
    the cycles of 400, 100 and 4 years. *)
Definition ord2ymd (ordinal : Z) : Z * Z * Z :=
  let n := (ordinal - 1)%Z in
  let n400 := (n / 146097)%Z in
  let n := (n mod 146097)%Z in
  let n100 := (n / 36524)%Z in
  let n := (n mod 36524)%Z in
  let n4 := (n / 1461)%Z in
  let n := (n mod 1461)%Z in
  let n1 := (n / 365)%Z in
  let n := (n mod 365)%Z in
  let year := (n400 * 400 + 1 + n100 * 100 + n4 * 4 + n1)%Z in
  if (n1 =? 4)%Z || (n100 =? 4)%Z then ((year - 1)%Z, 12%Z, 31%Z)
  else
    let leapyear := (n1 =? 3)%Z && (negb (n4 =? 24)%Z || (n100 =? 3)%Z) in
    let month := Z.shiftr (n + 50) 5 in
    let preceding := days_before_month leapyear month in
    if (n <? preceding)%Z
    then (year, (month - 1)%Z,
          (n - (preceding - days_in_month leapyear (month - 1)) + 1)%Z)
    else (year, month, (n - preceding + 1)%Z).

(** The text of a time given in microseconds on the scale of [strptime]. *)
Definition strftime (t : Z) : string :=
  let seconds := (t / 1000000)%Z in
  let '(year, month, day) := ord2ymd (seconds / 86400 + 1) in
  let hour := (seconds mod 86400 / 3600)%Z in
  let minute := (seconds mod 3600 / 60)%Z in
  let second := (seconds mod 60)%Z in
  let hour12 := if (hour mod 12 =? 0)%Z then 12%Z else (hour mod 12)%Z in
  month_name month +:+ " " +:+ two_digits day +:+ ", " +:+ year_text year
  +:+ " at " +:+ two_digits hour12 +:+ ":" +:+ two_digits minute +:+ ":"
  +:+ two_digits second +:+ " " +:+ (if (hour <? 12)%Z then "AM" else "PM").

(** [sum(l)] of a list of floats: from the left and from 0. *)
Definition py_sum (l : list float) : float := fold_left PrimFloat.add l 0%float.

(** [float(n)] of a length *)
Definition float_of_nat (n : nat) : float :=
  SF2Prim (binary_normalize prec emax (Z.of_nat n) 0 false).

Section Analysis.

Variable env : Env.

(** [str] of a [float]; its digits are not part of the model. *)
Variable float_str : float → string.

Definition print_time_range : Script unit :=
  epochs ← lift (epochs env);
  match epochs with
  | [] => print "No epoch data available"
  | first :: _ =>
      start ← lift (datetime_strptime (Bytes first));
      end_ ← lift (datetime_strptime (Bytes (default first (last epochs))));
      let start_readable := strftime start in
      let end_readable := strftime end_ in
      print "The data time range is from: ";;
      print (start_readable +:+ " to ");;
      print end_readable
  end.

(** The loop of [print_speeds]: the speeds of the epochs that are found.
    The epochs come from the list, as [bytes]. *)
Fixpoint collect_speeds (epochs : list bytes) : Py (list float) :=
  match epochs with
  | [] => mret []
  | epoch :: epochs' =>
      state_vector ← get_state_vector_epoch env (Bytes epoch);
      speed ← match state_vector with
              | Some state_vector =>
                  speed ← pure (calculate_speed (libm env)
                                  (StateVector.velocity state_vector));
                  mret (Some speed)
              | None => mret None
              end;
      speeds ← collect_speeds epochs';
      mret match speed with
           | Some speed => speed :: speeds
           | None => speeds
           end
  end.

Definition print_speeds (closest : option StateVector.t) : Script unit :=
  epochs ← lift (epochs env);
  speeds ← lift (collect_speeds epochs);
  match speeds with
  | [] => print "No speed data available"
  | _ :: _ =>
      let avg_speed := (py_sum speeds / float_of_nat (length speeds))%float in
      match closest with
      | None => throw TypeError
      | Some closest =>
          instant_speed ← lift (pure (calculate_speed (libm env)
                                        (StateVector.velocity closest)));
          print ("Average Speed over Whole Dataset: " +:+ float_str avg_speed);;
          print ("Instantaneous Speed: " +:+ float_str instant_speed)
      end
  end.

Definition analyze_data : Script unit :=
  lift (read_data env);;
  print_time_range;;
  closest ← lift (print_closest_epoch env);
  print_speeds closest.

End Analysis.

(** * Properties *)

(** ** The library functions on sample texts *)

Example py_int_examples :
  py_int "12" = Some 12%Z ∧ py_int " -12 " = Some (-12)%Z ∧
  py_int "1_000" = Some 1000%Z ∧ py_int "+007" = Some 7%Z ∧
  py_int "-0" = Some 0%Z ∧
  py_int "abc" = None ∧ py_int "1.5" = None ∧ py_int "" = None ∧
  py_int "- 1" = None ∧ py_int "1__0" = None ∧ py_int "_1" = None.
Proof. vm_compute. repeat split. Qed.

Example strptime_examples :
  strptime epoch_12 = Some 63846446400000000%Z ∧
  strptime epoch_13 = Some 63846450000000000%Z ∧
  strptime "2024-079T12:30:00.000Z" = Some half_past_12 ∧
  strptime "0001-001T00:00:00.0Z" = Some 0%Z ∧
  strptime "2024-000T12:00:00.000Z" = None ∧
  strptime "2024-079T12:00:60.000Z" = None ∧
  strptime "2024-03-19T12:00:00.000Z" = None ∧
  strptime "9999-366T00:00:00.0Z" = None.
Proof. vm_compute. repeat split. Qed.

Example py_float_examples :
  py_float "3.0" = Some 3%float ∧ py_float "-1.25e2" = Some (-125)%float ∧
  py_float "0.1" = Some 0x1.999999999999ap-4%float ∧
  py_float "1e400" = Some infinity ∧ py_float "-0.0" = Some neg_zero ∧
  py_float " inf " = Some infinity ∧ py_float "nan" = Some nan ∧
  py_float "abc" = None ∧ py_float "" = None ∧ py_float "1e" = None ∧
  py_float "." = None.
Proof. vm_compute. repeat split. Qed.

Example bytes_repr_examples :
  format (Bytes epoch_12) = "b'2024-079T12:00:00.000Z'" ∧
  format (Str epoch_12) = epoch_12 ∧
  iss_data (format (Bytes epoch_12)) ≠ iss_data epoch_12.
Proof. vm_compute. repeat split. discriminate. Qed.

(** ** The monad *)

Lemma bind_ok {A B : Type} (m : Py A) (f : A → Py B) w a w' :
  m w = (Ok a, w') → (m ≫= f) w = f a w'.
Proof. intros Hm. unfold mbind, Py_bind. now rewrite Hm. Qed.

Lemma bind_raise {A B : Type} (m : Py A) (f : A → Py B) w e w' :
  m w = (Raise e, w') → (m ≫= f) w = (Raise e, w').
Proof. intros Hm. unfold mbind, Py_bind. now rewrite Hm. Qed.

Lemma to_float_spec text w :
  to_float text w = match float_of text with
                    | Ok r => (Ok r, w)
                    | Raise e => (Raise e, w)
                    end.
Proof.
  unfold to_float, float_of.
  destruct text as [s|]; [destruct (py_float s)|]; reflexivity.
Qed.

Lemma store_state_vector_spec state_vector w :
  store_state_vector state_vector w =
    match mapping_of state_vector with
    | Ok record => (Ok tt, put record w)
    | Raise e => (Raise e, w)
    end.
Proof.
  unfold store_state_vector, mapping_of, mbind, Py_bind.
  repeat (rewrite to_float_spec; destruct (float_of _); [|reflexivity]).
  destruct (stateVector.EPOCH state_vector); reflexivity.
Qed.
(** ** The loader *)

Lemma load_app records records' w :
  load (records ++ records') w = load records' (load records w).
Proof. apply fold_left_app. Qed.

Lemma iss_epochs_load records w :
  iss_epochs (load records w) = iss_epochs w ++ map Hash.epoch records.
Proof.
  revert w. induction records as [|record records IH]; intros w; simpl.
  - now rewrite app_nil_r.
  - rewrite IH. simpl. now rewrite <- app_assoc.
Qed.

Lemma requested_load records w : requested (load records w) = requested w.
Proof.
  revert w. induction records as [|record records IH]; intros w; simpl;
    [reflexivity | now rewrite IH].
Qed.

(** The loop stores the elements that precede the first failing one and
    stops there. *)
Lemma for_each_stored elements records w :
  Forall2 stored_as elements records →
  for_each store_state_vector elements w = (Ok tt, load records w).
Proof.
  intros Hall. revert w.
  induction Hall as [|state_vector record elements records Hone _ IH]; intros w.
  - reflexivity.
  - simpl. erewrite bind_ok; [apply IH|].
    rewrite store_state_vector_spec. now rewrite Hone.
Qed.

Lemma for_each_raises before bad after records e w :
  Forall2 stored_as before records →
  mapping_of bad = Raise e →
  for_each store_state_vector (before ++ bad :: after) w = (Raise e, load records w).
Proof.
  intros Hall Hbad. revert w.
  induction Hall as [|state_vector record elements records Hone _ IH]; intros w.
  - simpl. apply bind_raise. rewrite store_state_vector_spec. now rewrite Hbad.
  - simpl. erewrite bind_ok; [apply IH|].
    rewrite store_state_vector_spec. now rewrite Hone.
Qed.

(** A document either is stored whole or has a first element that fails. *)
Lemma first_failure elements :
  (∃ records, Forall2 stored_as elements records) ∨
  (∃ before bad after records e,
      elements = before ++ bad :: after ∧
      Forall2 stored_as before records ∧ mapping_of bad = Raise e).
Proof.
  induction elements as [|state_vector elements IH].
  - left. exists []. constructor.
  - destruct (mapping_of state_vector) as [record|e] eqn:Hone.
    + destruct IH as [[records Hall]|(before & bad & after & records & e & -> & Hall & Hbad)].
      * left. exists (record :: records). now constructor.
      * right. exists (state_vector :: before), bad, after, (record :: records), e.
        repeat split; [now constructor | assumption].
    + right. exists [], state_vector, elements, [], e.
      repeat split; [constructor | assumption].
Qed.

Lemma malformed_raises state_vector :
  malformed state_vector → ∃ e, mapping_of state_vector = Raise e.
Proof.
  intros (text & Hnone & Hin). unfold mapping_of.
  assert (Hbad : float_of (Some text) = Raise ValueError)
    by (unfold float_of; now rewrite Hnone).
  repeat (apply elem_of_cons in Hin as [<- | Hin];
          [rewrite ?Hbad; eauto |];
          match goal with
          | |- context [float_of ?field] =>
              destruct (float_of field); [|eauto]
          end).
  now apply elem_of_nil in Hin.
Qed.

Lemma fetch_spec env w :
  fetch env w = match requests_get env (requested w) with
                | FetchRaises e => (Raise e, tick w)
                | Document elements => (Ok elements, tick w)
                end.
Proof. reflexivity. Qed.

Lemma read_data_offline env w e :
  requests_get env (requested w) = FetchRaises e →
  read_data env w = (Raise e, tick w).
Proof.
  intros Hget. unfold read_data. apply bind_raise.
  rewrite fetch_spec. now rewrite Hget.
Qed.

Lemma read_data_stored env w elements records :
  requests_get env (requested w) = Document elements →
  Forall2 stored_as elements records →
  read_data env w = (Ok tt, load records (tick w)).
Proof.
  intros Hget Hall. unfold read_data.
  erewrite bind_ok; [apply for_each_stored, Hall|].
  rewrite fetch_spec. now rewrite Hget.
Qed.

Lemma read_data_raises env w before bad after records e :
  requests_get env (requested w) = Document (before ++ bad :: after) →
  Forall2 stored_as before records →
  mapping_of bad = Raise e →
  read_data env w = (Raise e, load records (tick w)).
Proof.
  intros Hget Hall Hbad. unfold read_data.
  erewrite bind_ok; [apply for_each_raises; [exact Hall | exact Hbad]|].
  rewrite fetch_spec. now rewrite Hget.
Qed.

(** Whatever its outcome, a load leaves the store extended by a run of
    [put]s. *)
Lemma read_data_world env w outcome w' :
  read_data env w = (outcome, w') → ∃ records, w' = load records (tick w).
Proof.
  intros Hrun.
  destruct (requests_get env (requested w)) as [e|elements] eqn:Hget.
  - rewrite (read_data_offline _ _ _ Hget) in Hrun. exists [].
    injection Hrun as _ <-. reflexivity.
  - destruct (first_failure elements)
      as [[records Hall]|(before & bad & after & records & e & -> & Hall & Hbad)].
    + rewrite (read_data_stored _ _ _ _ Hget Hall) in Hrun. exists records. congruence.
    + rewrite (read_data_raises _ _ _ _ _ _ _ Hget Hall Hbad) in Hrun.
      exists records. congruence.
Qed.
(** ** Invariants of the store *)

Lemma iss_data_inj epoch epoch' : iss_data epoch = iss_data epoch' → epoch = epoch'.
Proof. unfold iss_data. apply (inj (String.app "iss_data:")). Qed.

Lemma consistent_empty : consistent empty_world.
Proof.
  split; simpl.
  - intros epoch Hin. now apply elem_of_nil in Hin.
  - intros epoch data Hget. now rewrite lookup_empty in Hget.
Qed.

Lemma consistent_put record w : consistent w → consistent (put record w).
Proof.
  intros [Hidx Hkey]. split; simpl.
  - intros epoch Hin.
    destruct (decide (iss_data (Hash.epoch record) = iss_data epoch)) as [Heq|Hne].
    + rewrite Heq, lookup_insert_eq. eauto.
    + rewrite lookup_insert_ne by assumption.
      apply elem_of_app in Hin as [Hin|Hin]; [now apply Hidx|].
      apply list_elem_of_singleton in Hin. now subst.
  - intros epoch data.
    destruct (decide (iss_data (Hash.epoch record) = iss_data epoch)) as [Heq|Hne].
    + rewrite Heq, lookup_insert_eq. intros [= <-]. now apply iss_data_inj.
    + rewrite lookup_insert_ne by assumption. apply Hkey.
Qed.

Lemma consistent_load records w : consistent w → consistent (load records w).
Proof.
  revert w. induction records as [|record records IH]; intros w Hw; simpl;
    [assumption | now apply IH, consistent_put].
Qed.

Lemma consistent_tick w : consistent w → consistent (tick w).
Proof. intros Hw. exact Hw. Qed.

(** The invariant survives every load, also a failing one. *)
Lemma read_data_consistent env w outcome w' :
  read_data env w = (outcome, w') → consistent w → consistent w'.
Proof.
  intros Hrun Hw. apply read_data_world in Hrun as [records ->].
  now apply consistent_load, consistent_tick.
Qed.

(** Hashes are overwritten but never removed. *)
Lemma load_keeps records w key :
  is_Some (hashes w !! key) → is_Some (hashes (load records w) !! key).
Proof.
  revert w. induction records as [|record records IH]; intros w Hw; simpl;
    [assumption|].
  apply IH. simpl.
  destruct (decide (iss_data (Hash.epoch record) = key)) as [<-|Hne].
  - rewrite lookup_insert_eq. eauto.
  - now rewrite lookup_insert_ne.
Qed.

Lemma read_data_keeps env w outcome w' key :
  read_data env w = (outcome, w') →
  is_Some (hashes w !! key) → is_Some (hashes w' !! key).
Proof.
  intros Hrun Hw. apply read_data_world in Hrun as [records ->].
  now apply load_keeps.
Qed.

(** The index only grows. *)
Lemma read_data_index env w outcome w' :
  read_data env w = (outcome, w') →
  ∃ records, iss_epochs w' = iss_epochs w ++ map Hash.epoch records.
Proof.
  intros Hrun. apply read_data_world in Hrun as [records ->].
  exists records. now rewrite iss_epochs_load.
Qed.
(** ** The reads, once their load has succeeded *)

(** ** What a lookup finds

    The names of the dict that [hgetall] answers are [bytes]; the lookup
    asks for [str] names. *)

Lemma dict_get_str repr mapping name :
  dict_get (Str name) (encode repr mapping) = None.
Proof. reflexivity. Qed.

Lemma pure_spec {A : Type} (outcome : Result A) w : pure outcome w = (outcome, w).
Proof. reflexivity. Qed.

Section AfterLoad.

Variable env : Env.
Variables w w' : World.
Hypothesis Hload : read_data env w = (Ok tt, w').

Lemma epochs_spec : epochs env w = (Ok (iss_epochs w'), w').
Proof. unfold epochs. now erewrite bind_ok by exact Hload. Qed.

Lemma epochs_limited_spec limit offset :
  epochs_limited env limit offset w
  = (Ok (slice_to (slice_from (iss_epochs w') offset) limit), w').
Proof. unfold epochs_limited. now erewrite bind_ok by exact Hload. Qed.

Lemma get_state_vector_epoch_spec epoch :
  get_state_vector_epoch env epoch w
  = (match hashes w' !! iss_data (format epoch) with
     | Some _ => Raise (KeyError "epoch")
     | None => Ok None
     end, w').
Proof.
  unfold get_state_vector_epoch. erewrite bind_ok by exact Hload.
  unfold mbind, Py_bind, hgetall.
  now destruct (hashes w' !! iss_data (format epoch)).
Qed.

Lemma get_speed_epoch_spec epoch :
  get_speed_epoch env epoch w
  = (match hashes w' !! iss_data (format epoch) with
     | Some _ => Raise (KeyError "epoch")
     | None => Ok None
     end, w').
Proof.
  unfold get_speed_epoch.
  destruct (hashes w' !! iss_data (format epoch)) eqn:Hdata.
  - rewrite (bind_raise _ _ w (KeyError "epoch") w'); [reflexivity|].
    now rewrite get_state_vector_epoch_spec, Hdata.
  - rewrite (bind_ok _ _ w None w'); [reflexivity|].
    now rewrite get_state_vector_epoch_spec, Hdata.
Qed.

Lemma get_location_epoch_spec epoch :
  get_location_epoch env epoch w
  = (match hashes w' !! iss_data (format epoch) with
     | Some _ => Raise (KeyError "epoch")
     | None => Ok None
     end, w').
Proof.
  unfold get_location_epoch.
  destruct (hashes w' !! iss_data (format epoch)) eqn:Hdata.
  - rewrite (bind_raise _ _ w (KeyError "epoch") w'); [reflexivity|].
    now rewrite get_state_vector_epoch_spec, Hdata.
  - rewrite (bind_ok _ _ w None w'); [reflexivity|].
    now rewrite get_state_vector_epoch_spec, Hdata.
Qed.

End AfterLoad.

(** ** The loader *)

Lemma stored_not_malformed elements records :
  Forall2 stored_as elements records → ¬ Exists malformed elements.
Proof.
  induction 1 as [|state_vector record elements records Hone _ IH]; intros Hex.
  - inversion Hex.
  - inversion Hex as [? ? Hbad|]; subst; [|now apply IH].
    apply malformed_raises in Hbad as [e Hbad].
    unfold stored_as in Hone. congruence.
Qed.

(** C2, as the code has it: a document with a malformed numeric field makes
    [read_data] raise, and the load stops at the first element that fails;
    the elements before it have been stored and their epochs appended, that
    element and the ones after it have not. *)
Theorem read_data_stops_at_first_failure env w elements :
  requests_get env (requested w) = Document elements →
  Exists malformed elements →
  ∃ before bad after records e,
    elements = before ++ bad :: after ∧
    Forall2 stored_as before records ∧
    mapping_of bad = Raise e ∧
    read_data env w = (Raise e, load records (tick w)) ∧
    iss_epochs (load records (tick w)) = iss_epochs w ++ map Hash.epoch records.
Proof.
  intros Hget Hex.
  destruct (first_failure elements)
    as [[records Hall]|(before & bad & after & records & e & -> & Hall & Hbad)].
  - now apply stored_not_malformed in Hall.
  - exists before, bad, after, records, e. repeat split; try assumption.
    + eapply read_data_raises; eassumption.
    + now rewrite iss_epochs_load.
Qed.

Lemma broken_feed_malformed : Exists malformed broken_feed.
Proof.
  right. left. exists "abc". split; [reflexivity | now left].
Qed.

Lemma read_data_stops_at_first_failure_witness :
  ∃ before bad after records e,
    broken_feed = before ++ bad :: after ∧
    Forall2 stored_as before records ∧
    mapping_of bad = Raise e ∧
    read_data broken_env empty_world = (Raise e, load records (tick empty_world)) ∧
    iss_epochs (load records (tick empty_world))
    = iss_epochs empty_world ++ map Hash.epoch records.
Proof.
  apply (read_data_stops_at_first_failure broken_env empty_world broken_feed).
  - reflexivity.
  - exact broken_feed_malformed.
Defined.

(** C2, as stated, fails: the second element of [broken_feed] has a
    non-numeric [X], the load raises, and the first element is in the store
    all the same. *)
Lemma read_data_not_all_or_nothing :
  Exists malformed broken_feed ∧
  ∃ w', read_data broken_env empty_world = (Raise ValueError, w') ∧
        iss_epochs w' = [epoch_12] ∧
        is_Some (hashes w' !! iss_data epoch_12) ∧
        iss_epochs w' ≠ iss_epochs empty_world ∧
        hashes w' ≠ hashes empty_world.
Proof.
  split; [exact broken_feed_malformed|].
  exists (snd (read_data broken_env empty_world)).
  assert (Hsome : is_Some (hashes (snd (read_data broken_env empty_world))
                           !! iss_data epoch_12))
    by (vm_compute; eauto).
  split; [vm_compute; reflexivity|].
  split; [vm_compute; reflexivity|].
  split; [exact Hsome|].
  split; [vm_compute; discriminate|].
  intros Heq. rewrite Heq in Hsome. simpl in Hsome.
  rewrite lookup_empty in Hsome. now destruct Hsome.
Qed.

(** ** The sample store *)

Lemma sample_feed_stored : ∃ records, Forall2 stored_as sample_feed records.
Proof.
  eexists. unfold sample_feed.
  constructor; [vm_compute; reflexivity|].
  constructor; [vm_compute; reflexivity|].
  constructor.
Qed.

Lemma sample_load answer w :
  read_data (env_of sample_feed answer) w
  = (Ok tt, snd (read_data (env_of sample_feed answer) w)).
Proof.
  destruct sample_feed_stored as [records Hall].
  now rewrite (read_data_stored (env_of sample_feed answer) w sample_feed records
                 eq_refl Hall).
Qed.


Lemma sample_index : iss_epochs loaded_once = [epoch_12; epoch_13].
Proof. vm_compute. reflexivity. Qed.

Lemma sample_index_not_empty : iss_epochs loaded_once ≠ [].
Proof. rewrite sample_index. discriminate. Qed.

(** ** Unknown epochs *)

(** C4: for an epoch that has no record in the store (after the load that
    every lookup starts with), [get_state_vector_epoch], [get_speed_epoch]
    and [get_location_epoch] return [None] without raising, and the three
    routes answer 404. *)
Theorem unknown_epoch_not_found env w w' epoch :
  read_data env w = (Ok tt, w') →
  hashes w' !! iss_data epoch = None →
  get_state_vector_epoch env epoch w = (Ok None, w') ∧
  get_speed_epoch env epoch w = (Ok None, w') ∧
  get_location_epoch env epoch w = (Ok None, w') ∧
  epoch_data env epoch w = (not_found epoch, w') ∧
  epoch_speed env epoch w = (not_found epoch, w') ∧
  epoch_location env epoch w = (not_found epoch, w') ∧
  status (not_found epoch) = 404%Z.
Proof.
  intros Hload Hnone.
  assert (Hvector : get_state_vector_epoch env epoch w = (Ok None, w'))
    by (rewrite (get_state_vector_epoch_spec _ _ _ Hload); simpl; now rewrite Hnone).
  assert (Hspeed : get_speed_epoch env epoch w = (Ok None, w'))
    by (rewrite (get_speed_epoch_spec _ _ _ Hload); simpl; now rewrite Hnone).
  assert (Hlocation : get_location_epoch env epoch w = (Ok None, w'))
    by (rewrite (get_location_epoch_spec _ _ _ Hload); simpl; now rewrite Hnone).
  repeat split; try assumption.
  - unfold epoch_data, route. now erewrite bind_ok by exact Hvector.
  - unfold epoch_speed, route. now erewrite bind_ok by exact Hspeed.
  - unfold epoch_location, route. now erewrite bind_ok by exact Hlocation.
Qed.

Lemma unknown_epoch_not_found_witness :
  get_state_vector_epoch sample_env "invalid-epoch" empty_world = (Ok None, loaded_once) ∧
  get_speed_epoch sample_env "invalid-epoch" empty_world = (Ok None, loaded_once) ∧
  get_location_epoch sample_env "invalid-epoch" empty_world = (Ok None, loaded_once) ∧
  epoch_data sample_env "invalid-epoch" empty_world
  = (not_found "invalid-epoch", loaded_once) ∧
  epoch_speed sample_env "invalid-epoch" empty_world
  = (not_found "invalid-epoch", loaded_once) ∧
  epoch_location sample_env "invalid-epoch" empty_world
  = (not_found "invalid-epoch", loaded_once) ∧
  status (not_found "invalid-epoch") = 404%Z.
Proof.
  apply (unknown_epoch_not_found sample_env empty_world loaded_once "invalid-epoch").
  - apply sample_load.
  - vm_compute. reflexivity.
Defined.

(** ** Pagination *)

(** ** Pagination *)

Lemma slice_nonneg {A : Type} (l : list A) limit offset :
  (0 <= limit)%Z → (0 <= offset)%Z →
  slice_to (slice_from l offset) limit
  = take (Z.to_nat limit) (drop (Z.to_nat offset) l).
Proof.
  intros Hlimit Hoffset. unfold slice_to, slice_from.
  destruct (Z.leb_spec 0 limit); [|lia].
  destruct (Z.leb_spec 0 offset); [reflexivity | lia].
Qed.

(** C6: for non-negative [limit] and [offset], [epochs_limited] returns the
    part of the loaded index that starts at position [offset] and holds at
    most [limit] epochs, in index order; it is empty when [offset] is at or
    beyond the end of the index. *)
Theorem epochs_limited_slice env w w' limit offset :
  read_data env w = (Ok tt, w') →
  (0 <= limit)%Z →
  (0 <= offset)%Z →
  ∃ page,
    epochs_limited env limit offset w = (Ok page, w') ∧
    page = take (Z.to_nat limit) (drop (Z.to_nat offset) (iss_epochs w')) ∧
    length page = Nat.min (Z.to_nat limit) (length (iss_epochs w') - Z.to_nat offset) ∧
    (∀ i, (i < length page)%nat →
          page !! i = iss_epochs w' !! (Z.to_nat offset + i)%nat) ∧
    ((Z.of_nat (length (iss_epochs w')) <= offset)%Z → page = []).
Proof.
  intros Hload Hlimit Hoffset.
  exists (take (Z.to_nat limit) (drop (Z.to_nat offset) (iss_epochs w'))).
  split; [|split; [reflexivity|split; [|split]]].
  - rewrite (epochs_limited_spec _ _ _ Hload). now rewrite slice_nonneg.
  - now rewrite length_take, length_drop.
  - intros i Hi. rewrite length_take in Hi.
    rewrite lookup_take_lt by lia. apply lookup_drop.
  - intros Hbeyond. rewrite drop_ge by lia. apply take_nil.
Qed.

Lemma epochs_limited_slice_witness :
  ∃ page,
    epochs_limited sample_env 1 1 empty_world = (Ok page, loaded_once) ∧
    page = take (Z.to_nat 1) (drop (Z.to_nat 1) (iss_epochs loaded_once)) ∧
    length page
    = Nat.min (Z.to_nat 1) (length (iss_epochs loaded_once) - Z.to_nat 1) ∧
    (∀ i, (i < length page)%nat →
          page !! i = iss_epochs loaded_once !! (Z.to_nat 1 + i)%nat) ∧
    ((Z.of_nat (length (iss_epochs loaded_once)) <= 1)%Z → page = []).
Proof.
  apply (epochs_limited_slice sample_env empty_world loaded_once 1 1).
  - apply sample_load.
  - lia.
  - lia.
Defined.

(** Limit 1 and offset 1 over the two
    sample epochs give the second one; offset 2 gives nothing. *)
Example epochs_limited_second :
  fst (epochs_limited sample_env 1 1 empty_world) = Ok [epoch_13].
Proof. vm_compute. reflexivity. Qed.

Example epochs_limited_beyond :
  fst (epochs_limited sample_env 5 2 empty_world) = Ok [].
Proof. vm_compute. reflexivity. Qed.

(** ** The route [/epochs] *)
(** ** The route [/epochs] *)

Lemma route_ok (view : Py Response) w response w' :
  view w = (Ok response, w') → route view w = (make_response response, w').
Proof. intros Hview. unfold route. now rewrite Hview. Qed.

Lemma route_raise (view : Py Response) w e w' :
  view w = (Raise e, w') →
  route view w = ({| body := JException e; status := 500 |}, w').
Proof. intros Hview. unfold route. now rewrite Hview. Qed.

(** A list of epochs can be made into JSON only when it is empty: its
    elements are [bytes]. *)
Lemma make_response_epochs epochs :
  make_response (OK (JEpochs epochs))
  = match epochs with
    | [] => OK (JEpochs [])
    | _ :: _ => internal_server_error
    end.
Proof. now destruct epochs. Qed.

Lemma epoch_limit_data_all env w w' :
  read_data env w = (Ok tt, w') →
  epoch_limit_data env None None w
  = (make_response (OK (JEpochs (iss_epochs w'))), w').
Proof.
  intros Hload. unfold epoch_limit_data. apply route_ok.
  now erewrite bind_ok by (apply epochs_spec, Hload).
Qed.

(** C10: when only one of [limit] and [offset] is given, its text is not
    looked at: the answer is that of a request without parameters.  Once
    the load has succeeded that answer is 200 with the whole index only
    when the index is empty; a non-empty index is a list of [bytes], which
    Flask answers with its own 500. *)
Theorem lone_parameter_answer env w value :
  epoch_limit_data env (Some value) None w = epoch_limit_data env None None w ∧
  epoch_limit_data env None (Some value) w = epoch_limit_data env None None w ∧
  (∀ w', read_data env w = (Ok tt, w') →
         (iss_epochs w' = [] →
          epoch_limit_data env None None w = (OK (JEpochs []), w')) ∧
         (iss_epochs w' ≠ [] →
          epoch_limit_data env None None w = (internal_server_error, w') ∧
          status internal_server_error = 500%Z)).
Proof.
  split; [reflexivity|]. split; [reflexivity|].
  intros w' Hload.
  rewrite (epoch_limit_data_all env w w' Hload), make_response_epochs.
  split.
  - now intros ->.
  - intros Hne. destruct (iss_epochs w'); [contradiction | now split].
Qed.

Lemma lone_parameter_answer_witness :
  epoch_limit_data sample_env (Some "-1") None empty_world
  = epoch_limit_data sample_env None None empty_world ∧
  epoch_limit_data sample_env None (Some "abc") empty_world
  = epoch_limit_data sample_env None None empty_world ∧
  epoch_limit_data sample_env None None empty_world
  = (internal_server_error, loaded_once) ∧
  status internal_server_error = 500%Z.
Proof.
  pose proof (lone_parameter_answer sample_env empty_world "-1") as (Hlimit & _ & _).
  pose proof (lone_parameter_answer sample_env empty_world "abc")
    as (_ & Hoffset & Hloaded).
  destruct (Hloaded loaded_once (sample_load _ empty_world)) as [_ Hfull].
  destruct (Hfull sample_index_not_empty) as [Hanswer Hstatus].
  split; [exact Hlimit|]. split; [exact Hoffset|]. split; [exact Hanswer|].
  exact Hstatus.
Defined.

(** C1, as stated, fails: a negative [limit] given without [offset] is not
    answered 400.  On an empty index it is answered 200 with the whole
    index. *)
Lemma lone_negative_limit_accepted :
  py_int "-1" = Some (-1)%Z ∧
  fst (epoch_limit_data (env_of [] GeoNone) (Some "-1") None empty_world)
  = OK (JEpochs []) ∧
  status (fst (epoch_limit_data sample_env (Some "-1") None empty_world)) ≠ 400%Z.
Proof.
  split; [vm_compute; reflexivity|].
  split; [vm_compute; reflexivity|].
  vm_compute. discriminate.
Qed.

(** C1, as the code has it: when both [limit] and [offset] are given and
    one of them is not an integer, the answer is 400 with a message that
    contains "integers"; when both are integers and one of them is
    negative, the answer is 400 with a message that contains
    "non-negative".  Nothing is loaded in either case. *)
Theorem epoch_limit_data_rejects env w limit offset :
  (py_int limit = None ∨ py_int offset = None →
   ∃ message,
     epoch_limit_data env (Some limit) (Some offset) w
     = ({| body := JError message; status := 400 |}, w) ∧
     Text.contains "integers" message = true) ∧
  (∀ l o, py_int limit = Some l → py_int offset = Some o →
          (l < 0)%Z ∨ (o < 0)%Z →
   ∃ message,
     epoch_limit_data env (Some limit) (Some offset) w
     = ({| body := JError message; status := 400 |}, w) ∧
     Text.contains "non-negative" message = true).
Proof.
  split.
  - intros Hbad. exists "Limit and offset must be integers".
    split; [|reflexivity].
    unfold epoch_limit_data, route.
    destruct (py_int limit) as [l|]; [|reflexivity].
    destruct Hbad as [Hbad | ->]; [discriminate | reflexivity].
  - intros l o Hl Ho Hneg.
    exists "Limit and offset must be non-negative integers".
    split; [|reflexivity].
    unfold epoch_limit_data, route. rewrite Hl, Ho.
    assert (Htest : (l <? 0)%Z || (o <? 0)%Z = true).
    { apply orb_true_iff. destruct Hneg; [left | right]; now apply Z.ltb_lt. }
    now rewrite Htest.
Qed.

Lemma epoch_limit_data_rejects_witness :
  (∃ message,
     epoch_limit_data offline_env (Some "abc") (Some "1") empty_world
     = ({| body := JError message; status := 400 |}, empty_world) ∧
     Text.contains "integers" message = true) ∧
  (∃ message,
     epoch_limit_data offline_env (Some "-1") (Some "1") empty_world
     = ({| body := JError message; status := 400 |}, empty_world) ∧
     Text.contains "non-negative" message = true).
Proof.
  split.
  - apply (proj1 (epoch_limit_data_rejects offline_env empty_world "abc" "1")).
    left. vm_compute. reflexivity.
  - apply (proj2 (epoch_limit_data_rejects offline_env empty_world "-1" "1")
             (-1)%Z 1%Z).
    + vm_compute. reflexivity.
    + vm_compute. reflexivity.
    + left. lia.
Defined.

(** The request of [test_error_handling_invalid_parameters]. *)
Example limit_minus_one :
  fst (epoch_limit_data offline_env (Some "-1") (Some "1") empty_world)
  = {| body := JError "Limit and offset must be non-negative integers";
       status := 400 |}.
Proof. vm_compute. reflexivity. Qed.

(** A negative [limit] next to a non-numeric [offset] gets the message
    about integers. *)
Example negative_and_non_numeric :
  fst (epoch_limit_data offline_env (Some "-1") (Some "abc") empty_world)
  = {| body := JError "Limit and offset must be integers"; status := 400 |}.
Proof. vm_compute. reflexivity. Qed.

(** ** The closest epoch *)

Lemma read_data_outcome env w :
  (∃ w', read_data env w = (Ok tt, w')) ∨ (∃ e w', read_data env w = (Raise e, w')).
Proof. destruct (read_data env w) as [[[]|e] w']; eauto. Qed.

Lemma comprehension_timediff_bytes now epoch index w :
  comprehension (λ epoch, timediff now (Bytes epoch)) (epoch :: index) w
  = (Raise TypeError, w).
Proof. reflexivity. Qed.

Lemma print_closest_epoch_empty env w w1 :
  read_data env w = (Ok tt, w1) →
  iss_epochs w1 = [] →
  print_closest_epoch env w = (Ok None, w1).
Proof.
  intros Hload Hempty. unfold print_closest_epoch.
  erewrite bind_ok by (apply epochs_spec, Hload).
  now rewrite Hempty.
Qed.

Lemma print_closest_epoch_raises env w w1 :
  read_data env w = (Ok tt, w1) →
  iss_epochs w1 ≠ [] →
  print_closest_epoch env w = (Raise TypeError, w1).
Proof.
  intros Hload Hne. unfold print_closest_epoch.
  erewrite bind_ok by (apply epochs_spec, Hload).
  destruct (iss_epochs w1) as [|epoch index]; [contradiction|].
  now erewrite bind_raise by apply comprehension_timediff_bytes.
Qed.

(** C3: once the index is loaded, [print_closest_epoch] returns [None] on an
    empty index, and on a non-empty index it raises [TypeError] at the
    first epoch, whatever the epochs and the clock are: the epochs are
    [bytes], which [strptime] does not take.  No distance is computed and
    no state vector is looked up. *)
Theorem print_closest_epoch_type_error env w w1 :
  read_data env w = (Ok tt, w1) →
  (iss_epochs w1 = [] → print_closest_epoch env w = (Ok None, w1)) ∧
  (iss_epochs w1 ≠ [] → print_closest_epoch env w = (Raise TypeError, w1)).
Proof.
  intros Hload. split.
  - now apply print_closest_epoch_empty.
  - now apply print_closest_epoch_raises.
Qed.

Lemma print_closest_epoch_type_error_witness :
  iss_epochs loaded_once = [epoch_12; epoch_13] ∧
  strptime epoch_12 = Some 63846446400000000%Z ∧
  print_closest_epoch sample_env empty_world = (Raise TypeError, loaded_once).
Proof.
  split; [exact sample_index|]. split; [vm_compute; reflexivity|].
  apply (proj2 (print_closest_epoch_type_error sample_env empty_world loaded_once
                  (sample_load _ empty_world))).
  exact sample_index_not_empty.
Defined.

(** ** Speed and location of a stored epoch *)

Lemma sample_record_12 :
  hashes loaded_once !! iss_data epoch_12
  = Some {| Hash.epoch := epoch_12; Hash.x := 1; Hash.y := 2; Hash.z := 3;
            Hash.x_dot := 3; Hash.y_dot := 4; Hash.z_dot := 5 |}.
Proof. vm_compute. reflexivity. Qed.

Lemma calculate_speed_zero libm :
  calculate_speed libm {| Velocity.x_dot := 0; Velocity.y_dot := 0;
                          Velocity.z_dot := 0 |} = Ok 0%float.
Proof. reflexivity. Qed.

(** With a [pow] that squares exactly, the velocity (3, 4, 5) has the speed
    7.0710678118654755, the binary64 square root of 50. *)
Example calculate_speed_3_4_5 :
  calculate_speed sample_libm {| Velocity.x_dot := 3; Velocity.y_dot := 4;
                                 Velocity.z_dot := 5 |}
  = Ok 0x1.c48c6001f0acp+2%float.
Proof. vm_compute. reflexivity. Qed.

(** C9: for an epoch with a record in the store, [get_speed_epoch] raises
    [KeyError] and the route answers 500 with it: the dict that Redis
    answers has [bytes] names, and the lookup asks it for the [str] name
    ["epoch"] before any speed is computed.  The helper [calculate_speed]
    itself gives 0 for the zero velocity. *)
Theorem get_speed_epoch_key_error env w w' epoch mapping :
  read_data env w = (Ok tt, w') →
  hashes w' !! iss_data epoch = Some mapping →
  get_speed_epoch env epoch w = (Raise (KeyError "epoch"), w') ∧
  epoch_speed env epoch w
  = ({| body := JException (KeyError "epoch"); status := 500 |}, w') ∧
  calculate_speed (libm env) {| Velocity.x_dot := 0; Velocity.y_dot := 0;
                                Velocity.z_dot := 0 |} = Ok 0%float.
Proof.
  intros Hload Hdata.
  assert (Hrun : get_speed_epoch env epoch w = (Raise (KeyError "epoch"), w'))
    by (rewrite (get_speed_epoch_spec _ _ _ Hload); simpl; now rewrite Hdata).
  split; [exact Hrun|]. split; [|apply calculate_speed_zero].
  unfold epoch_speed. apply route_raise.
  now erewrite bind_raise by exact Hrun.
Qed.

Lemma get_speed_epoch_key_error_witness :
  Hash.x_dot {| Hash.epoch := epoch_12; Hash.x := 1; Hash.y := 2; Hash.z := 3;
                Hash.x_dot := 3; Hash.y_dot := 4; Hash.z_dot := 5 |} = 3%float ∧
  get_speed_epoch sample_env epoch_12 empty_world
  = (Raise (KeyError "epoch"), loaded_once) ∧
  epoch_speed sample_env epoch_12 empty_world
  = ({| body := JException (KeyError "epoch"); status := 500 |}, loaded_once).
Proof.
  split; [reflexivity|].
  destruct (get_speed_epoch_key_error sample_env empty_world loaded_once epoch_12 _
              (sample_load _ empty_world) sample_record_12) as (Hrun & Hroute & _).
  split; [exact Hrun | exact Hroute].
Defined.

(** C7: for an epoch with a record in the store, [get_location_epoch]
    raises [KeyError] and the route answers 500 with it, whatever the
    geocoder would answer: the lookup of the state vector asks the dict
    with [bytes] names for the [str] name ["epoch"].  The geocoder is not
    reached; its fallback, taken by itself, gives the two fixed texts. *)
Theorem get_location_epoch_key_error env w w' epoch mapping :
  read_data env w = (Ok tt, w') →
  hashes w' !! iss_data epoch = Some mapping →
  get_location_epoch env epoch w = (Raise (KeyError "epoch"), w') ∧
  epoch_location env epoch w
  = ({| body := JException (KeyError "epoch"); status := 500 |}, w') ∧
  (∀ latitude longitude,
     geolocator_reverse env latitude longitude = GeoNone →
     geoposition_of env latitude longitude = "Over water or uninhabited area") ∧
  (∀ latitude longitude e,
     geolocator_reverse env latitude longitude = GeoRaises e →
     geoposition_of env latitude longitude = "Location data unavalible").
Proof.
  intros Hload Hdata.
  assert (Hrun : get_location_epoch env epoch w = (Raise (KeyError "epoch"), w'))
    by (rewrite (get_location_epoch_spec _ _ _ Hload); simpl; now rewrite Hdata).
  split; [exact Hrun|]. split; [|split].
  - unfold epoch_location. apply route_raise.
    now erewrite bind_raise by exact Hrun.
  - intros latitude longitude Hnone. unfold geoposition_of. now rewrite Hnone.
  - intros latitude longitude e Hraises. unfold geoposition_of. now rewrite Hraises.
Qed.

Lemma get_location_epoch_key_error_witness :
  get_location_epoch offline_geocoder epoch_12 empty_world
  = (Raise (KeyError "epoch"), snd (read_data offline_geocoder empty_world)) ∧
  epoch_location offline_geocoder epoch_12 empty_world
  = ({| body := JException (KeyError "epoch"); status := 500 |},
     snd (read_data offline_geocoder empty_world)) ∧
  geoposition_of offline_geocoder 0 0 = "Location data unavalible" ∧
  geoposition_of (env_of sample_feed GeoNone) 0 0 = "Over water or uninhabited area".
Proof.
  destruct (get_location_epoch_key_error offline_geocoder empty_world
              (snd (read_data offline_geocoder empty_world)) epoch_12
              {| Hash.epoch := epoch_12; Hash.x := 1; Hash.y := 2; Hash.z := 3;
                 Hash.x_dot := 3; Hash.y_dot := 4; Hash.z_dot := 5 |}
              (sample_load _ empty_world) ltac:(vm_compute; reflexivity))
    as (Hrun & Hroute & _ & Hraises).
  split; [exact Hrun|]. split; [exact Hroute|].
  split; [now apply (Hraises _ _ (GeocoderError "timed out"))|reflexivity].
Defined.

(** ** The route [/now] *)

Lemma print_closest_epoch_never_found env w :
  (∃ w', print_closest_epoch env w = (Ok None, w')) ∨
  (∃ e w', print_closest_epoch env w = (Raise e, w')).
Proof.
  destruct (read_data_outcome env w) as [[w' Hload]|(e & w' & Hload)].
  - destruct (iss_epochs w') eqn:Hindex.
    + left. exists w'. now apply print_closest_epoch_empty.
    + right. exists TypeError, w'. apply print_closest_epoch_raises; [exact Hload|].
      now rewrite Hindex.
  - right. exists e, w'. unfold print_closest_epoch, epochs.
    erewrite bind_raise; [reflexivity|]. now erewrite bind_raise by exact Hload.
Qed.

Lemma get_now_empty env w w1 :
  read_data env w = (Ok tt, w1) →
  iss_epochs w1 = [] →
  get_now env w = (Ok None, w1).
Proof.
  intros Hload Hempty. unfold get_now.
  now erewrite bind_ok by (apply print_closest_epoch_empty; eassumption).
Qed.

Lemma get_now_raises env w w1 :
  read_data env w = (Ok tt, w1) →
  iss_epochs w1 ≠ [] →
  get_now env w = (Raise TypeError, w1).
Proof.
  intros Hload Hne. unfold get_now.
  now erewrite bind_raise by (apply print_closest_epoch_raises; eassumption).
Qed.

Lemma get_now_never_found env w :
  (∃ w', get_now env w = (Ok None, w')) ∨ (∃ e w', get_now env w = (Raise e, w')).
Proof.
  unfold get_now.
  destruct (print_closest_epoch_never_found env w) as [[w' Hrun]|(e & w' & Hrun)].
  - left. exists w'. now erewrite bind_ok by exact Hrun.
  - right. exists e, w'. now erewrite bind_raise by exact Hrun.
Qed.

(** C5: [now_data] always answers 500.  When the loaded index is empty,
    [get_now] returns [None] and the route answers 500 with its own
    message; when it is not empty, [get_now] raises the [TypeError] of
    [print_closest_epoch] and the route answers 500 with that: nothing is
    composed from the speed and the location of a closest epoch. *)
Theorem now_data_answers_500 env w :
  status (fst (now_data env w)) = 500%Z ∧
  (∀ w1,
     read_data env w = (Ok tt, w1) →
     (iss_epochs w1 = [] →
      get_now env w = (Ok None, w1) ∧
      now_data env w
      = ({| body := JError "Could not determine current ISS data"; status := 500 |},
         w1)) ∧
     (iss_epochs w1 ≠ [] →
      get_now env w = (Raise TypeError, w1) ∧
      now_data env w = ({| body := JException TypeError; status := 500 |}, w1))).
Proof.
  split.
  - unfold now_data, route, mbind, Py_bind.
    destruct (get_now_never_found env w) as [[w' Hrun]|(e & w' & Hrun)];
      now rewrite Hrun.
  - intros w1 Hload. split.
    + intros Hempty. pose proof (get_now_empty env w w1 Hload Hempty) as Hrun.
      split; [exact Hrun|]. unfold now_data.
      rewrite (route_ok _ w {| body := JError "Could not determine current ISS data";
                               status := 500 |} w1); [reflexivity|].
      now erewrite bind_ok by exact Hrun.
    + intros Hne. pose proof (get_now_raises env w w1 Hload Hne) as Hrun.
      split; [exact Hrun|]. unfold now_data. apply route_raise.
      now erewrite bind_raise by exact Hrun.
Qed.

Lemma now_data_answers_500_witness :
  get_now (env_of [] GeoNone) empty_world = (Ok None, tick empty_world) ∧
  now_data (env_of [] GeoNone) empty_world
  = ({| body := JError "Could not determine current ISS data"; status := 500 |},
     tick empty_world) ∧
  get_now sample_env empty_world = (Raise TypeError, loaded_once) ∧
  now_data sample_env empty_world
  = ({| body := JException TypeError; status := 500 |}, loaded_once).
Proof.
  destruct (proj1 (proj2 (now_data_answers_500 (env_of [] GeoNone) empty_world)
                     (tick empty_world) eq_refl) eq_refl) as [Hnone Hanswer].
  destruct (proj2 (proj2 (now_data_answers_500 sample_env empty_world)
                     loaded_once (sample_load _ empty_world))
              sample_index_not_empty) as [Hraise Hanswer'].
  repeat split; assumption.
Defined.

(** * Further properties of the loader and the store *)

Lemma put_lookup record w key :
  hashes (put record w) !! key
  = if decide (iss_data (Hash.epoch record) = key) then Some record
    else hashes w !! key.
Proof. unfold put. simpl. apply lookup_insert. Qed.

Lemma load_snoc records record w :
  load (records ++ [record]) w = put record (load records w).
Proof. now rewrite load_app. Qed.

Lemma hashes_load_key records w key :
  hashes (load records w) !! key
  = match last (filter (λ record, iss_data (Hash.epoch record) = key) records) with
    | Some record => Some record
    | None => hashes w !! key
    end.
Proof.
  induction records as [|record records IH] using rev_ind; [reflexivity|].
  rewrite load_snoc, put_lookup, filter_app, filter_cons, filter_nil.
  destruct (decide (iss_data (Hash.epoch record) = key)) as [Heq|Hne].
  - now rewrite last_snoc.
  - now rewrite app_nil_r.
Qed.

Lemma latest_key epoch records :
  last (filter (λ record, iss_data (Hash.epoch record) = iss_data epoch) records)
  = latest epoch records.
Proof.
  unfold latest. f_equal. apply list_filter_iff. intros record. split.
  - apply iss_data_inj.
  - now intros ->.
Qed.

Lemma hashes_load records w epoch :
  hashes (load records w) !! iss_data epoch
  = match latest epoch records with
    | Some record => Some record
    | None => hashes w !! iss_data epoch
    end.
Proof. now rewrite hashes_load_key, latest_key. Qed.

(** X1: a load that succeeds appends the epochs of the document to the
    index, in document order and without looking for duplicates; it issues
    one request. *)
Theorem read_data_appends env w elements records :
  requests_get env (requested w) = Document elements →
  Forall2 stored_as elements records →
  ∃ w', read_data env w = (Ok tt, w') ∧
        iss_epochs w' = iss_epochs w ++ map Hash.epoch records ∧
        Forall2 (λ element epoch, stateVector.EPOCH element = Some epoch)
                elements (map Hash.epoch records) ∧
        requested w' = S (requested w).
Proof.
  intros Hget Hall. exists (load records (tick w)).
  split; [now apply read_data_stored with elements|].
  split; [now rewrite iss_epochs_load|]. split.
  - clear Hget. induction Hall as [|element record elements records Hone _ IH];
      [constructor|].
    constructor; [|exact IH].
    unfold stored_as, mapping_of in Hone.
    repeat (destruct (float_of _); [|discriminate]).
    destruct (stateVector.EPOCH element); [|discriminate].
    now injection Hone as <-.
  - now rewrite requested_load.
Qed.

Lemma read_data_appends_witness :
  ∃ records w',
    Forall2 stored_as sample_feed records ∧
    read_data sample_env empty_world = (Ok tt, w') ∧
    iss_epochs w' = iss_epochs empty_world ++ map Hash.epoch records ∧
    Forall2 (λ element epoch, stateVector.EPOCH element = Some epoch)
            sample_feed (map Hash.epoch records) ∧
    requested w' = S (requested empty_world).
Proof.
  destruct sample_feed_stored as [records Hall].
  destruct (read_data_appends sample_env empty_world sample_feed records
              eq_refl Hall) as (w' & Hrun).
  exists records, w'. split; [exact Hall | exact Hrun].
Defined.


Lemma hashes_tick w : hashes (tick w) = hashes w.
Proof. reflexivity. Qed.

Lemma hashes_reload records w w0 :
  hashes w = hashes (load records w0) →
  hashes (load records w) = hashes (load records w0).
Proof.
  intros Hsame. apply map_eq. intros key.
  rewrite (hashes_load_key records w), Hsame.
  destruct (last _) as [record|] eqn:Hlast; [|reflexivity].
  rewrite (hashes_load_key records w0). now rewrite Hlast.
Qed.


(** X4: loading the same document again changes no hash; only the index
    grows, by one more copy of the document's epochs. *)
Theorem reload_changes_no_hash env w elements records :
  requests_get env (requested w) = Document elements →
  requests_get env (S (requested w)) = Document elements →
  Forall2 stored_as elements records →
  ∃ w1 w2,
    read_data env w = (Ok tt, w1) ∧
    read_data env w1 = (Ok tt, w2) ∧
    hashes w2 = hashes w1 ∧
    iss_epochs w2 = iss_epochs w1 ++ map Hash.epoch records ∧
    length (iss_epochs w2) = (length (iss_epochs w) + 2 * length elements)%nat.
Proof.
  intros Hget Hget' Hall.
  exists (load records (tick w)), (load records (tick (load records (tick w)))).
  split; [now apply read_data_stored with elements|].
  split.
  { apply read_data_stored with elements; [|exact Hall].
    now rewrite requested_load. }
  split; [|split].
  - apply map_eq. intros key. rewrite (hashes_load_key records (tick _)).
    destruct (last _) as [record|] eqn:Hlast; [|reflexivity].
    rewrite (hashes_load_key records (tick w)). now rewrite Hlast.
  - now rewrite iss_epochs_load.
  - rewrite iss_epochs_load. cbn [tick iss_epochs]. rewrite iss_epochs_load.
    cbn [tick iss_epochs]. rewrite !length_app, !length_map.
    apply Forall2_length in Hall. lia.
Qed.

Lemma reload_changes_no_hash_witness :
  ∃ records w1 w2,
    Forall2 stored_as sample_feed records ∧
    read_data sample_env empty_world = (Ok tt, w1) ∧
    read_data sample_env w1 = (Ok tt, w2) ∧
    hashes w2 = hashes w1 ∧
    iss_epochs w2 = iss_epochs w1 ++ map Hash.epoch records ∧
    length (iss_epochs w2)
    = (length (iss_epochs empty_world) + 2 * length sample_feed)%nat.
Proof.
  destruct sample_feed_stored as [records Hall].
  destruct (reload_changes_no_hash sample_env empty_world sample_feed records
              eq_refl eq_refl Hall) as (w1 & w2 & Hrun).
  exists records, w1, w2. split; [exact Hall | exact Hrun].
Defined.

(** X5: when the request of the feed fails, the load raises that failure
    and the store is as before; the routes that read the store answer 500
    with it. *)
Theorem feed_down env w e epoch :
  requests_get env (requested w) = FetchRaises e →
  let answer := ({| body := JException e; status := 500 |}, tick w) in
  read_data env w = (Raise e, tick w) ∧
  hashes (tick w) = hashes w ∧
  iss_epochs (tick w) = iss_epochs w ∧
  epoch_limit_data env None None w = answer ∧
  epoch_data env epoch w = answer ∧
  epoch_speed env epoch w = answer ∧
  epoch_location env epoch w = answer ∧
  now_data env w = answer.
Proof.
  intros Hget answer.
  pose proof (read_data_offline _ _ _ Hget) as Hload.
  assert (Hvector : get_state_vector_epoch env epoch w = (Raise e, tick w))
    by (unfold get_state_vector_epoch; now apply bind_raise).
  assert (Hepochs : epochs env w = (Raise e, tick w))
    by (unfold epochs; now apply bind_raise).
  split; [exact Hload|]. split; [reflexivity|]. split; [reflexivity|].
  unfold answer, epoch_limit_data, epoch_data, epoch_speed, epoch_location,
    now_data, route, get_speed_epoch, get_location_epoch, get_now,
    print_closest_epoch.
  repeat split;
    now rewrite ?(bind_raise _ _ _ _ _ Hepochs), ?(bind_raise _ _ _ _ _ Hvector);
    repeat (erewrite bind_raise; [reflexivity|]);
    first [exact Hepochs | exact Hvector | idtac].
Qed.
Lemma feed_down_witness :
  read_data offline_env empty_world
  = (Raise (FeedError "connection refused"), tick empty_world) ∧
  hashes (tick empty_world) = hashes empty_world ∧
  iss_epochs (tick empty_world) = iss_epochs empty_world ∧
  epoch_limit_data offline_env None None empty_world
  = ({| body := JException (FeedError "connection refused"); status := 500 |},
     tick empty_world) ∧
  epoch_data offline_env epoch_12 empty_world
  = ({| body := JException (FeedError "connection refused"); status := 500 |},
     tick empty_world) ∧
  epoch_speed offline_env epoch_12 empty_world
  = ({| body := JException (FeedError "connection refused"); status := 500 |},
     tick empty_world) ∧
  epoch_location offline_env epoch_12 empty_world
  = ({| body := JException (FeedError "connection refused"); status := 500 |},
     tick empty_world) ∧
  now_data offline_env empty_world
  = ({| body := JException (FeedError "connection refused"); status := 500 |},
     tick empty_world).
Proof.
  apply (feed_down offline_env empty_world (FeedError "connection refused") epoch_12).
  reflexivity.
Defined.

(** ** The store only grows *)

Lemma extends_refl w : extends w w.
Proof.
  split; [auto|]. split; [|auto]. exists []. now rewrite app_nil_r.
Qed.

Lemma extends_trans w1 w2 w3 : extends w1 w2 → extends w2 w3 → extends w1 w3.
Proof.
  intros (Hkeys & [l Hl] & Hinv) (Hkeys' & [l' Hl'] & Hinv').
  split; [auto|]. split; [|auto].
  exists (l ++ l'). now rewrite Hl', Hl, app_assoc.
Qed.

Create HintDb monotone.

Lemma monotone_ret {A : Type} (a : A) : monotone (mret a).
Proof. intros w outcome w' [= _ <-]. apply extends_refl. Qed.

Lemma monotone_raise {A : Type} e : monotone (@raise A e).
Proof. intros w outcome w' [= _ <-]. apply extends_refl. Qed.

Lemma monotone_bind {A B : Type} (m : Py A) (f : A → Py B) :
  monotone m → (∀ a, monotone (f a)) → monotone (m ≫= f).
Proof.
  intros Hm Hf w outcome w' Hrun. unfold mbind, Py_bind in Hrun.
  destruct (m w) as [[a|e] w1] eqn:Hmw.
  - eapply extends_trans; [eapply Hm, Hmw | eapply Hf, Hrun].
  - injection Hrun as _ <-. eapply Hm, Hmw.
Qed.

Lemma monotone_read_data env : monotone (read_data env).
Proof.
  intros w outcome w' Hrun. split; [|split].
  - intros key. now apply read_data_keeps with env outcome.
  - destruct (read_data_index _ _ _ _ Hrun) as [records Hidx]. eauto.
  - now apply read_data_consistent with env outcome.
Qed.

Lemma monotone_lrange_all : monotone lrange_all.
Proof. intros w outcome w' [= _ <-]. apply extends_refl. Qed.

Lemma monotone_hgetall repr name : monotone (hgetall repr name).
Proof. intros w outcome w' [= _ <-]. apply extends_refl. Qed.

Lemma monotone_pure {A : Type} (outcome : Result A) : monotone (pure outcome).
Proof. intros w outcome' w' [= _ <-]. apply extends_refl. Qed.

Lemma monotone_getitem data key : monotone (getitem data key).
Proof.
  unfold getitem. destruct (dict_get key data);
    [apply monotone_ret | apply monotone_raise].
Qed.

Lemma monotone_float_of_pystr value : monotone (float_of_pystr value).
Proof.
  unfold float_of_pystr. destruct (py_float _);
    [apply monotone_ret | apply monotone_raise].
Qed.

Lemma monotone_datetime_strptime value : monotone (datetime_strptime value).
Proof.
  unfold datetime_strptime. destruct value as [text|payload];
    [|apply monotone_raise].
  destruct (strptime text); [apply monotone_ret | apply monotone_raise].
Qed.

Lemma monotone_comprehension {A B : Type} (body : A → Py B) l :
  (∀ a, monotone (body a)) → monotone (comprehension body l).
Proof.
  intros Hbody. induction l as [|a l IH]; simpl; [apply monotone_ret|].
  apply monotone_bind; [apply Hbody|]. intros b.
  apply monotone_bind; [exact IH|]. intros bs. apply monotone_ret.
Qed.

#[local] Hint Resolve monotone_ret monotone_raise monotone_read_data
  monotone_lrange_all monotone_hgetall monotone_pure monotone_getitem
  monotone_float_of_pystr monotone_datetime_strptime : monotone.

(** Splits a computation at its binds and its case distinctions. *)
Ltac monotone :=
  repeat first
    [ progress auto with monotone
    | apply monotone_bind; [|intros ?]
    | apply monotone_comprehension; intros ?
    | match goal with
      | |- monotone (match ?scrutinee with _ => _ end) => destruct scrutinee
      | |- monotone (if ?test then _ else _) => destruct test
      end ].

Lemma monotone_timediff now epoch : monotone (timediff now epoch).
Proof. unfold timediff. monotone. Qed.

#[local] Hint Resolve monotone_timediff : monotone.

Lemma monotone_epochs env : monotone (epochs env).
Proof. unfold epochs. monotone. Qed.

Lemma monotone_epochs_limited env limit offset :
  monotone (epochs_limited env limit offset).
Proof. unfold epochs_limited. monotone. Qed.

Lemma monotone_get_state_vector_epoch env epoch :
  monotone (get_state_vector_epoch env epoch).
Proof. unfold get_state_vector_epoch. monotone. Qed.

#[local] Hint Resolve monotone_epochs monotone_epochs_limited
  monotone_get_state_vector_epoch : monotone.

Lemma monotone_get_speed_epoch env epoch : monotone (get_speed_epoch env epoch).
Proof. unfold get_speed_epoch. monotone. Qed.

Lemma monotone_get_location_epoch env epoch :
  monotone (get_location_epoch env epoch).
Proof. unfold get_location_epoch. monotone. Qed.

Lemma monotone_print_closest_epoch env : monotone (print_closest_epoch env).
Proof. unfold print_closest_epoch. monotone. Qed.

#[local] Hint Resolve monotone_get_speed_epoch monotone_get_location_epoch
  monotone_print_closest_epoch : monotone.

Lemma monotone_get_now env : monotone (get_now env).
Proof. unfold get_now. monotone. Qed.

#[local] Hint Resolve monotone_get_now : monotone.

Lemma route_extends (view : Py Response) w :
  monotone view → extends w (snd (route view w)).
Proof.
  intros Hview. unfold route.
  destruct (view w) as [[response|e] w'] eqn:Hrun; simpl; eapply Hview, Hrun.
Qed.

(** X6: no route ever removes a hash or an epoch, whatever it answers: the
    hashes of the store are kept (they may be overwritten), its index stays
    a prefix of the new index, and the index and the hashes stay in
    agreement. *)
Theorem routes_extend_store env w limit offset epoch :
  extends w (snd (epoch_limit_data env limit offset w)) ∧
  extends w (snd (epoch_data env epoch w)) ∧
  extends w (snd (epoch_speed env epoch w)) ∧
  extends w (snd (epoch_location env epoch w)) ∧
  extends w (snd (now_data env w)).
Proof.
  split; [|split; [|split; [|split]]]; apply route_extends.
  - destruct limit as [limit|], offset as [offset|]; monotone.
  - monotone.
  - monotone.
  - monotone.
  - monotone.
Qed.

(** ** What the routes answer *)

Lemma bind_inv_ok {A B : Type} (m : Py A) (f : A → Py B) w b w' :
  (m ≫= f) w = (Ok b, w') → ∃ a w1, m w = (Ok a, w1) ∧ f a w1 = (Ok b, w').
Proof.
  unfold mbind, Py_bind. destruct (m w) as [[a|e] w1]; [eauto | discriminate].
Qed.

Lemma epochs_inv env w index w1 :
  epochs env w = (Ok index, w1) →
  read_data env w = (Ok tt, w1) ∧ index = iss_epochs w1.
Proof.
  intros Hrun. apply bind_inv_ok in Hrun as ([] & w0 & Hload & Hrange).
  injection Hrange as <- <-. auto.
Qed.


(** X9: [/epochs] answers 400 only to a request that gives both [limit]
    and [offset] with one of them not an integer or negative, and then it
    neither requests the feed nor touches the store. *)
Theorem epoch_limit_data_400_only env w limit offset :
  status (fst (epoch_limit_data env limit offset w)) = 400%Z →
  (∃ limit_text offset_text,
      limit = Some limit_text ∧ offset = Some offset_text ∧
      (py_int limit_text = None ∨ py_int offset_text = None ∨
       ∃ l o, py_int limit_text = Some l ∧ py_int offset_text = Some o ∧
              ((l < 0)%Z ∨ (o < 0)%Z))) ∧
  snd (epoch_limit_data env limit offset w) = w.
Proof.
  assert (Hall : ∀ w, status (fst (epoch_limit_data env None None w)) ≠ 400%Z).
  { intros w0. unfold epoch_limit_data, route, mbind, Py_bind.
    destruct (epochs env w0) as [[[|epoch index]|e] w1]; simpl; discriminate. }
  destruct limit as [limit|], offset as [offset|]; intros Hstatus;
    try (now apply Hall in Hstatus).
  destruct (py_int limit) as [l|] eqn:Hl;
    [|split; [eauto 8 | unfold epoch_limit_data; now rewrite Hl]].
  destruct (py_int offset) as [o|] eqn:Ho;
    [|split; [eauto 8 | unfold epoch_limit_data; now rewrite Hl, Ho]].
  destruct (Z.ltb_spec l 0) as [Hlneg|Hlpos].
  { split; [eauto 12|]. unfold epoch_limit_data. rewrite Hl, Ho.
    now rewrite (proj2 (Z.ltb_lt l 0) Hlneg). }
  destruct (Z.ltb_spec o 0) as [Honeg|Hopos].
  { split; [eauto 12|]. unfold epoch_limit_data. rewrite Hl, Ho.
    now rewrite (proj2 (Z.ltb_lt o 0) Honeg), orb_true_r. }
  exfalso. revert Hstatus. unfold epoch_limit_data, route. rewrite Hl, Ho.
  rewrite (proj2 (Z.ltb_ge l 0) Hlpos), (proj2 (Z.ltb_ge o 0) Hopos).
  cbn [orb].
  destruct (epochs_limited env l o w) as [[[|epoch page]|e] w1] eqn:Hrun.
  - erewrite bind_ok by exact Hrun. discriminate.
  - erewrite bind_ok by exact Hrun. discriminate.
  - erewrite bind_raise by exact Hrun. discriminate.
Qed.

Lemma epoch_limit_data_400_only_witness :
  (∃ limit_text offset_text,
      Some "-1" = Some limit_text ∧ Some "1" = Some offset_text ∧
      (py_int limit_text = None ∨ py_int offset_text = None ∨
       ∃ l o, py_int limit_text = Some l ∧ py_int offset_text = Some o ∧
              ((l < 0)%Z ∨ (o < 0)%Z))) ∧
  snd (epoch_limit_data sample_env (Some "-1") (Some "1") empty_world) = empty_world.
Proof.
  apply (epoch_limit_data_400_only sample_env empty_world (Some "-1") (Some "1")).
  vm_compute. reflexivity.
Defined.


Lemma epochs_limited_inv env limit offset w page w1 :
  epochs_limited env limit offset w = (Ok page, w1) →
  read_data env w = (Ok tt, w1) ∧
  page = slice_to (slice_from (iss_epochs w1) offset) limit.
Proof.
  intros Hrun. apply bind_inv_ok in Hrun as ([] & w0 & Hload & Hrest).
  injection Hrest as <- <-. auto.
Qed.

(** X10: a page that lies within the index does not change when the feed is
    loaded again: the same [limit] and [offset] give the same epochs. *)
Theorem page_stable_under_reload env w w1 w2 limit offset page :
  (0 <= limit)%Z →
  (0 <= offset)%Z →
  epochs_limited env limit offset w = (Ok page, w1) →
  (Z.to_nat offset + Z.to_nat limit <= length (iss_epochs w1))%nat →
  read_data env w1 = (Ok tt, w2) →
  epochs_limited env limit offset w1 = (Ok page, w2).
Proof.
  intros Hlimit Hoffset Hrun Hwithin Hload'.
  apply epochs_limited_inv in Hrun as [Hload ->].
  rewrite (epochs_limited_spec _ _ _ Hload'). do 2 f_equal.
  destruct (read_data_index _ _ _ _ Hload') as [records ->].
  rewrite !slice_nonneg by assumption.
  rewrite drop_app_le by lia. apply take_app_le. rewrite length_drop. lia.
Qed.

Lemma page_stable_under_reload_witness :
  epochs_limited sample_env 1 1 loaded_once = (Ok [epoch_13], loaded_twice).
Proof.
  apply (page_stable_under_reload sample_env empty_world loaded_once loaded_twice 1 1).
  - lia.
  - lia.
  - vm_compute. reflexivity.
  - rewrite sample_index. simpl. lia.
  - apply sample_load.
Defined.

(** X11: turning pages forward neither skips nor repeats an epoch, although
    every request loads the feed again: a full first page followed by the
    page that starts where it ends make up one page of both lengths. *)
Theorem pages_concatenate env w w1 w2 a b offset page1 page2 :
  (0 <= a)%Z →
  (0 <= b)%Z →
  (0 <= offset)%Z →
  epochs_limited env a offset w = (Ok page1, w1) →
  (Z.to_nat offset + Z.to_nat a <= length (iss_epochs w1))%nat →
  epochs_limited env b (offset + a) w1 = (Ok page2, w2) →
  page1 ++ page2 = take (Z.to_nat (a + b)) (drop (Z.to_nat offset) (iss_epochs w2)) ∧
  epochs_limited env (a + b) offset w
  = (Ok (take (Z.to_nat (a + b)) (drop (Z.to_nat offset) (iss_epochs w1))), w1).
Proof.
  intros Ha Hb Hoffset Hrun1 Hfull Hrun2.
  apply epochs_limited_inv in Hrun1 as [Hload1 ->].
  apply epochs_limited_inv in Hrun2 as [Hload2 ->].
  split.
  - destruct (read_data_index _ _ _ _ Hload2) as [records Hindex].
    rewrite !slice_nonneg by lia. rewrite Hindex.
    rewrite Z2Nat.inj_add, Z2Nat.inj_add by lia.
    rewrite <- take_take_drop, drop_drop. f_equal.
    rewrite drop_app_le by lia. symmetry. apply take_app_le.
    rewrite length_drop. lia.
  - rewrite (epochs_limited_spec _ _ _ Hload1). now rewrite slice_nonneg by lia.
Qed.

Lemma pages_concatenate_witness :
  [epoch_12] ++ [epoch_13; epoch_12]
  = take (Z.to_nat (1 + 2)) (drop (Z.to_nat 0) (iss_epochs loaded_twice)) ∧
  epochs_limited sample_env (1 + 2) 0 empty_world
  = (Ok (take (Z.to_nat (1 + 2)) (drop (Z.to_nat 0) (iss_epochs loaded_once))),
     loaded_once).
Proof.
  apply (pages_concatenate sample_env empty_world loaded_once loaded_twice 1 2 0).
  - lia.
  - lia.
  - lia.
  - vm_compute. reflexivity.
  - rewrite sample_index. simpl. lia.
  - vm_compute. reflexivity.
Defined.



(** ** How often the feed is requested *)

Lemma read_data_requested env w outcome w' :
  read_data env w = (outcome, w') → requested w' = S (requested w).
Proof.
  intros Hrun. apply read_data_world in Hrun as [records ->].
  now rewrite requested_load.
Qed.

Lemma after_read_data {A : Type} env (rest : Py A) w :
  (∀ w1 outcome w2, rest w1 = (outcome, w2) → w2 = w1) →
  requested (snd ((read_data env ≫= λ _, rest) w)) = S (requested w).
Proof.
  intros Hrest. unfold mbind, Py_bind.
  destruct (read_data env w) as [[[]|e] w1] eqn:Hload.
  - destruct (rest w1) as [outcome w2] eqn:Hrun.
    apply Hrest in Hrun as ->. simpl. eapply read_data_requested, Hload.
  - simpl. eapply read_data_requested, Hload.
Qed.


Lemma get_state_vector_epoch_cases env epoch w :
  (∃ w', read_data env w = (Ok tt, w') ∧
         get_state_vector_epoch env epoch w
         = (match hashes w' !! iss_data (format epoch) with
            | Some _ => Raise (KeyError "epoch")
            | None => Ok None
            end, w')) ∨
  (∃ e w', read_data env w = (Raise e, w') ∧
           get_state_vector_epoch env epoch w = (Raise e, w')).
Proof.
  destruct (read_data_outcome env w) as [[w' Hload]|(e & w' & Hload)].
  - left. exists w'. split; [exact Hload|].
    apply get_state_vector_epoch_spec, Hload.
  - right. exists e, w'. split; [exact Hload|].
    unfold get_state_vector_epoch. now erewrite bind_raise by exact Hload.
Qed.

(** No lookup ever finds a state vector. *)
Lemma get_state_vector_epoch_never_found env epoch w :
  (∃ w', get_state_vector_epoch env epoch w = (Ok None, w')) ∨
  (∃ e w', get_state_vector_epoch env epoch w = (Raise e, w')).
Proof.
  destruct (get_state_vector_epoch_cases env epoch w)
    as [(w' & _ & Hrun)|(e & w' & _ & Hrun)]; [|eauto].
  destruct (hashes w' !! iss_data (format epoch)); eauto.
Qed.

Lemma get_state_vector_epoch_requested env epoch w :
  requested (snd (get_state_vector_epoch env epoch w)) = S (requested w).
Proof.
  destruct (get_state_vector_epoch_cases env epoch w)
    as [(w' & Hload & ->)|(e & w' & Hload & ->)];
    simpl; eapply read_data_requested, Hload.
Qed.


(** X16: each of [epochs], [epochs_limited], [get_state_vector_epoch],
    [get_speed_epoch] and [get_location_epoch] requests the feed exactly
    once, whatever it returns or raises. *)
Theorem each_read_requests_once env w limit offset epoch :
  requested (snd (epochs env w)) = S (requested w) ∧
  requested (snd (epochs_limited env limit offset w)) = S (requested w) ∧
  requested (snd (get_state_vector_epoch env epoch w)) = S (requested w) ∧
  requested (snd (get_speed_epoch env epoch w)) = S (requested w) ∧
  requested (snd (get_location_epoch env epoch w)) = S (requested w).
Proof.
  split; [|split; [|split; [|split]]].
  - unfold epochs. apply after_read_data. now intros w1 outcome w2 [= _ <-].
  - unfold epochs_limited. apply after_read_data.
    now intros w1 outcome w2 [= _ <-].
  - apply get_state_vector_epoch_requested.
  - rewrite <- (get_state_vector_epoch_requested env epoch w).
    unfold get_speed_epoch.
    destruct (get_state_vector_epoch_never_found env epoch w)
      as [[w' Hrun]|(e & w' & Hrun)].
    + erewrite bind_ok by exact Hrun. now rewrite Hrun.
    + erewrite bind_raise by exact Hrun. now rewrite Hrun.
  - rewrite <- (get_state_vector_epoch_requested env epoch w).
    unfold get_location_epoch.
    destruct (get_state_vector_epoch_never_found env epoch w)
      as [[w' Hrun]|(e & w' & Hrun)].
    + erewrite bind_ok by exact Hrun. now rewrite Hrun.
    + erewrite bind_raise by exact Hrun. now rewrite Hrun.
Qed.


(** ** What the lookup routes answer *)

Lemma get_speed_epoch_never_found env epoch w :
  (∃ w', get_speed_epoch env epoch w = (Ok None, w')) ∨
  (∃ e w', get_speed_epoch env epoch w = (Raise e, w')).
Proof.
  unfold get_speed_epoch.
  destruct (get_state_vector_epoch_never_found env epoch w)
    as [[w' Hrun]|(e & w' & Hrun)].
  - left. exists w'. now erewrite bind_ok by exact Hrun.
  - right. exists e, w'. now erewrite bind_raise by exact Hrun.
Qed.

Lemma get_location_epoch_never_found env epoch w :
  (∃ w', get_location_epoch env epoch w = (Ok None, w')) ∨
  (∃ e w', get_location_epoch env epoch w = (Raise e, w')).
Proof.
  unfold get_location_epoch.
  destruct (get_state_vector_epoch_never_found env epoch w)
    as [[w' Hrun]|(e & w' & Hrun)].
  - left. exists w'. now erewrite bind_ok by exact Hrun.
  - right. exists e, w'. now erewrite bind_raise by exact Hrun.
Qed.

(** X8: with a well-formed, non-negative [limit] and [offset], [/epochs]
    answers 200 only when the page is empty; a page that holds an epoch is
    a list of [bytes], which Flask answers with its own 500. *)
Theorem epoch_limit_data_page env w w' limit offset l o :
  py_int limit = Some l →
  py_int offset = Some o →
  (0 <= l)%Z →
  (0 <= o)%Z →
  read_data env w = (Ok tt, w') →
  epoch_limit_data env (Some limit) (Some offset) w
  = (match take (Z.to_nat l) (drop (Z.to_nat o) (iss_epochs w')) with
     | [] => OK (JEpochs [])
     | _ :: _ => internal_server_error
     end, w').
Proof.
  intros Hl Ho Hlpos Hopos Hload. unfold epoch_limit_data. rewrite Hl, Ho.
  rewrite (proj2 (Z.ltb_ge l 0) Hlpos), (proj2 (Z.ltb_ge o 0) Hopos).
  cbn [orb]. rewrite <- make_response_epochs. apply route_ok.
  erewrite bind_ok by (apply epochs_limited_spec, Hload).
  now rewrite slice_nonneg.
Qed.

Lemma epoch_limit_data_page_witness :
  epoch_limit_data sample_env (Some "1") (Some "1") empty_world
  = (match take (Z.to_nat 1) (drop (Z.to_nat 1) (iss_epochs loaded_once)) with
     | [] => OK (JEpochs [])
     | _ :: _ => internal_server_error
     end, loaded_once) ∧
  take (Z.to_nat 1) (drop (Z.to_nat 1) (iss_epochs loaded_once)) = [epoch_13] ∧
  epoch_limit_data sample_env (Some "5") (Some "2") empty_world
  = (match take (Z.to_nat 5) (drop (Z.to_nat 2) (iss_epochs loaded_once)) with
     | [] => OK (JEpochs [])
     | _ :: _ => internal_server_error
     end, loaded_once) ∧
  take (Z.to_nat 5) (drop (Z.to_nat 2) (iss_epochs loaded_once)) = [].
Proof.
  split; [|split; [|split]].
  - apply (epoch_limit_data_page sample_env empty_world loaded_once "1" "1" 1 1);
      [reflexivity | reflexivity | lia | lia | apply sample_load].
  - rewrite sample_index. reflexivity.
  - apply (epoch_limit_data_page sample_env empty_world loaded_once "5" "2" 5 2);
      [reflexivity | reflexivity | lia | lia | apply sample_load].
  - rewrite sample_index. reflexivity.
Defined.

(** X12: the three lookup routes never answer 200.  What they answer is
    settled by the load and by the hash of the epoch: 500 with the
    exception when the load raises, 404 when the epoch has no hash, and
    500 with [KeyError] when it has one. *)
Theorem lookup_routes_answer env w epoch outcome w' :
  read_data env w = (outcome, w') →
  let answer :=
    (match outcome with
     | Raise e => {| body := JException e; status := 500 |}
     | Ok _ =>
         match hashes w' !! iss_data epoch with
         | None => not_found epoch
         | Some _ => {| body := JException (KeyError "epoch"); status := 500 |}
         end
     end, w') in
  epoch_data env epoch w = answer ∧
  epoch_speed env epoch w = answer ∧
  epoch_location env epoch w = answer ∧
  status (fst answer) ≠ 200%Z.
Proof.
  intros Hload answer. unfold answer, epoch_data, epoch_speed, epoch_location.
  destruct outcome as [[]|e].
  - pose proof (get_state_vector_epoch_spec env w w' Hload epoch) as Hvector.
    pose proof (get_speed_epoch_spec env w w' Hload epoch) as Hspeed.
    pose proof (get_location_epoch_spec env w w' Hload epoch) as Hlocation.
    simpl in Hvector, Hspeed, Hlocation.
    destruct (hashes w' !! iss_data epoch) as [mapping|].
    + rewrite !(route_raise _ w (KeyError "epoch") w');
        [now repeat split | | |];
        now erewrite bind_raise by eassumption.
    + rewrite !(route_ok _ w (not_found epoch) w');
        [now repeat split | | |];
        now erewrite bind_ok by eassumption.
  - assert (Hvector : get_state_vector_epoch env epoch w = (Raise e, w'))
      by (unfold get_state_vector_epoch; now erewrite bind_raise by exact Hload).
    rewrite !(route_raise _ w e w'); [now repeat split | | |].
    + unfold get_location_epoch.
      erewrite bind_raise; [reflexivity|]. now erewrite bind_raise by exact Hvector.
    + unfold get_speed_epoch.
      erewrite bind_raise; [reflexivity|]. now erewrite bind_raise by exact Hvector.
    + now erewrite bind_raise by exact Hvector.
Qed.

Lemma lookup_routes_answer_witness :
  epoch_data sample_env epoch_12 empty_world
  = ({| body := JException (KeyError "epoch"); status := 500 |}, loaded_once) ∧
  epoch_data sample_env "invalid-epoch" empty_world
  = (not_found "invalid-epoch", loaded_once) ∧
  epoch_data offline_env epoch_12 empty_world
  = ({| body := JException (FeedError "connection refused"); status := 500 |},
     tick empty_world).
Proof.
  pose proof (lookup_routes_answer sample_env empty_world epoch_12 (Ok tt) loaded_once
                (sample_load _ empty_world)) as [Hfound _].
  pose proof (lookup_routes_answer sample_env empty_world "invalid-epoch" (Ok tt)
                loaded_once (sample_load _ empty_world)) as [Hmissing _].
  pose proof (lookup_routes_answer offline_env empty_world epoch_12
                (Raise (FeedError "connection refused")) (tick empty_world)
                eq_refl) as [Hdown _].
  split; [|split; [|exact Hdown]].
  - rewrite Hfound. cbv zeta. now rewrite sample_record_12.
  - rewrite Hmissing. reflexivity.
Defined.

(** * The analysis that prints *)

Lemma script_bind_ok {A B : Type} (m : Script A) (f : A → Script B) c a c' :
  m c = (Ok a, c') → (m ≫= f) c = f a c'.
Proof. intros Hm. unfold mbind, Script_bind. now rewrite Hm. Qed.

Lemma script_bind_raise {A B : Type} (m : Script A) (f : A → Script B) c e c' :
  m c = (Raise e, c') → (m ≫= f) c = (Raise e, c').
Proof. intros Hm. unfold mbind, Script_bind. now rewrite Hm. Qed.

Lemma lift_spec {A : Type} (m : Py A) w out outcome w' :
  m w = (outcome, w') → lift m (w, out) = (outcome, (w', out)).
Proof. intros Hm. unfold lift. simpl. now rewrite Hm. Qed.

Lemma print_time_range_empty env w w1 out :
  read_data env w = (Ok tt, w1) →
  iss_epochs w1 = [] →
  print_time_range env (w, out)
  = (Ok tt, (w1, out ++ ["No epoch data available"])).
Proof.
  intros Hload Hempty. unfold print_time_range.
  erewrite script_bind_ok by (apply lift_spec, epochs_spec, Hload).
  now rewrite Hempty.
Qed.

Lemma print_time_range_raises env w w1 out :
  read_data env w = (Ok tt, w1) →
  iss_epochs w1 ≠ [] →
  print_time_range env (w, out) = (Raise TypeError, (w1, out)).
Proof.
  intros Hload Hne. unfold print_time_range.
  erewrite script_bind_ok by (apply lift_spec, epochs_spec, Hload).
  destruct (iss_epochs w1) as [|first rest]; [contradiction | reflexivity].
Qed.

(** X21: on an empty loaded index [print_time_range] prints that there is
    no epoch data; on any other index it raises [TypeError] with nothing
    printed, since the epochs it hands to [strptime] are [bytes]. *)
Theorem print_time_range_prints_no_range env w w1 out :
  read_data env w = (Ok tt, w1) →
  (iss_epochs w1 = [] →
   print_time_range env (w, out)
   = (Ok tt, (w1, out ++ ["No epoch data available"]))) ∧
  (iss_epochs w1 ≠ [] →
   print_time_range env (w, out) = (Raise TypeError, (w1, out))).
Proof.
  intros Hload. split.
  - now apply print_time_range_empty.
  - now apply print_time_range_raises.
Qed.

Lemma print_time_range_prints_no_range_witness :
  print_time_range (env_of [] GeoNone) (empty_world, [])
  = (Ok tt, (tick empty_world, [] ++ ["No epoch data available"])) ∧
  print_time_range sample_env (empty_world, []) = (Raise TypeError, (loaded_once, [])).
Proof.
  split.
  - apply (proj1 (print_time_range_prints_no_range (env_of [] GeoNone) empty_world
                    (tick empty_world) [] eq_refl)).
    reflexivity.
  - apply (proj2 (print_time_range_prints_no_range sample_env empty_world
                    loaded_once [] (sample_load _ empty_world))).
    exact sample_index_not_empty.
Defined.

(** The loop of [print_speeds] never comes by a speed. *)
Lemma collect_speeds_never env index w :
  (∃ w', collect_speeds env index w = (Ok [], w')) ∨
  (∃ e w', collect_speeds env index w = (Raise e, w')).
Proof.
  revert w. induction index as [|epoch index IH]; intros w.
  - left. now exists w.
  - cbn [collect_speeds].
    destruct (get_state_vector_epoch_never_found env (Bytes epoch) w)
      as [[w1 Hrun]|(e & w1 & Hrun)].
    + erewrite bind_ok by exact Hrun. cbv beta iota.
      destruct (IH w1) as [[w' Hrest]|(e & w' & Hrest)].
      * left. exists w'. unfold mbind, Py_bind, mret, Py_ret. now rewrite Hrest.
      * right. exists e, w'. unfold mbind, Py_bind, mret, Py_ret. now rewrite Hrest.
    + right. exists e, w1. now erewrite bind_raise by exact Hrun.
Qed.

Lemma print_speeds_nothing env float_str closest w out w1 w' :
  read_data env w = (Ok tt, w1) →
  collect_speeds env (iss_epochs w1) w1 = (Ok [], w') →
  print_speeds env float_str closest (w, out)
  = (Ok tt, (w', out ++ ["No speed data available"])).
Proof.
  intros Hload Hloop. unfold print_speeds.
  erewrite script_bind_ok by (apply lift_spec, epochs_spec, Hload).
  now erewrite script_bind_ok by (apply lift_spec, Hloop).
Qed.

Lemma print_speeds_loop_raises env float_str closest w out w1 e w' :
  read_data env w = (Ok tt, w1) →
  collect_speeds env (iss_epochs w1) w1 = (Raise e, w') →
  print_speeds env float_str closest (w, out) = (Raise e, (w', out)).
Proof.
  intros Hload Hloop. unfold print_speeds.
  erewrite script_bind_ok by (apply lift_spec, epochs_spec, Hload).
  now erewrite script_bind_raise by (apply lift_spec, Hloop).
Qed.

(** X22: with an empty loaded index [print_speeds] prints that there is no
    speed data and returns, also when it is handed no closest state vector:
    that argument is not looked at. *)
Theorem print_speeds_no_data env float_str closest w w1 out :
  read_data env w = (Ok tt, w1) →
  iss_epochs w1 = [] →
  print_speeds env float_str closest (w, out)
  = (Ok tt, (w1, out ++ ["No speed data available"])).
Proof.
  intros Hload Hempty.
  apply print_speeds_nothing with w1; [exact Hload|]. now rewrite Hempty.
Qed.

Lemma print_speeds_no_data_witness :
  print_speeds (env_of [] GeoNone) (λ _, "?") None (empty_world, [])
  = (Ok tt, (tick empty_world, [] ++ ["No speed data available"])).
Proof.
  apply (print_speeds_no_data (env_of [] GeoNone) (λ _, "?") None empty_world
           (tick empty_world) []); reflexivity.
Defined.

(** X23: [print_speeds] never prints a speed.  Whatever the store, the feed
    and the closest state vector are, it either raises, with nothing
    printed, or prints the one line that there is no speed data: the
    lookups of its loop return nothing or raise. *)
Theorem print_speeds_never_prints_a_speed env float_str closest w out :
  (∃ w', print_speeds env float_str closest (w, out)
         = (Ok tt, (w', out ++ ["No speed data available"]))) ∨
  (∃ e w', print_speeds env float_str closest (w, out) = (Raise e, (w', out))).
Proof.
  destruct (read_data_outcome env w) as [[w1 Hload]|(e & w1 & Hload)].
  - destruct (collect_speeds_never env (iss_epochs w1) w1)
      as [[w' Hloop]|(e & w' & Hloop)].
    + left. exists w'. now apply print_speeds_nothing with w1.
    + right. exists e, w'. now apply print_speeds_loop_raises with w1.
  - right. exists e, w1. unfold print_speeds.
    erewrite script_bind_raise; [reflexivity|].
    apply lift_spec. unfold epochs. now erewrite bind_raise by exact Hload.
Qed.

Lemma analyze_data_steps env float_str w out w1 w2 out2 closest w3 :
  read_data env w = (Ok tt, w1) →
  print_time_range env (w1, out) = (Ok tt, (w2, out2)) →
  print_closest_epoch env w2 = (Ok closest, w3) →
  analyze_data env float_str (w, out)
  = print_speeds env float_str closest (w3, out2).
Proof.
  intros Hload Hrange Hclosest. unfold analyze_data.
  erewrite script_bind_ok by (apply lift_spec, Hload).
  erewrite script_bind_ok by exact Hrange.
  erewrite script_bind_ok by (apply lift_spec, Hclosest).
  reflexivity.
Qed.

Lemma steady_load env elements records w :
  steady env elements →
  Forall2 stored_as elements records →
  read_data env w = (Ok tt, load records (tick w)).
Proof. intros Hsteady Hstored. apply read_data_stored with elements; auto. Qed.

(** X24: when the feed keeps giving a document without state vectors and
    the index is empty, [analyze_data] returns normally: it prints that
    there is no epoch data and no speed data, requests the feed four times
    and leaves the store as it was. *)
Theorem analyze_data_no_data env float_str w out :
  steady env [] →
  iss_epochs w = [] →
  analyze_data env float_str (w, out)
  = (Ok tt, (tick (tick (tick (tick w))),
             out ++ ["No epoch data available"; "No speed data available"])).
Proof.
  intros Hsteady Hempty.
  assert (Hload : ∀ w0, read_data env w0 = (Ok tt, tick w0))
    by (intros w0; apply (steady_load env [] [] w0 Hsteady ltac:(constructor))).
  rewrite (analyze_data_steps env float_str w out (tick w) (tick (tick w))
             (out ++ ["No epoch data available"]) None (tick (tick (tick w)))).
  - rewrite (print_speeds_nothing env float_str None _ _
               (tick (tick (tick (tick w)))) (tick (tick (tick (tick w))))
               (Hload _)).
    + now rewrite <- app_assoc.
    + cbn [tick iss_epochs]. now rewrite Hempty.
  - apply Hload.
  - apply print_time_range_empty; [apply Hload | exact Hempty].
  - apply print_closest_epoch_empty; [apply Hload | exact Hempty].
Qed.

Lemma analyze_data_no_data_witness :
  analyze_data (env_of [] GeoNone) (λ _, "?") (empty_world, [])
  = (Ok tt, (tick (tick (tick (tick empty_world))),
             [] ++ ["No epoch data available"; "No speed data available"])).
Proof.
  apply (analyze_data_no_data (env_of [] GeoNone) (λ _, "?") empty_world []).
  - intros n. reflexivity.
  - reflexivity.
Defined.

(** X25: as soon as the index holds an epoch after the second load,
    [analyze_data] stops in [print_time_range] with [TypeError]: it has
    requested the feed twice and printed nothing, and neither the closest
    epoch nor a speed is looked for. *)
Theorem analyze_data_type_error env float_str w w1 w2 out :
  read_data env w = (Ok tt, w1) →
  read_data env w1 = (Ok tt, w2) →
  iss_epochs w2 ≠ [] →
  analyze_data env float_str (w, out) = (Raise TypeError, (w2, out)) ∧
  requested w2 = (2 + requested w)%nat.
Proof.
  intros Hload Hload' Hne. split.
  - unfold analyze_data.
    erewrite script_bind_ok by (apply lift_spec, Hload).
    now erewrite script_bind_raise by (apply print_time_range_raises; eassumption).
  - rewrite (read_data_requested _ _ _ _ Hload').
    now rewrite (read_data_requested _ _ _ _ Hload).
Qed.

Lemma analyze_data_type_error_witness :
  analyze_data sample_env (λ _, "?") (empty_world, [])
  = (Raise TypeError, (loaded_twice, [])) ∧
  requested loaded_twice = (2 + requested empty_world)%nat.
Proof.
  apply (analyze_data_type_error sample_env (λ _, "?") empty_world loaded_once
           loaded_twice []).
  - apply sample_load.
  - apply sample_load.
  - vm_compute. discriminate.
Defined.
